(** * Employee Management System: credential and session layer

    A shallow embedding of the authentication code of the repository
    (models/User.js, middleware/auth.js, utils/errors.js, utils/validators.js,
    graphql/typeDefs.js, graphql/resolvers.js, scripts/seed.js) and the
    properties its specification states about it.

    Conventions.
    - A JavaScript string is the list of its UTF-16 code units.
    - An [async] function is a computation in the monad [M]: it reads and
      writes the two Mongo collections, records every bcrypt call it makes
      and either returns a value or throws.
    - Library functions the repository calls but does not define (bcryptjs,
      jsonwebtoken, validator.js, two String/Date built-ins) and the process
      environment are the fields of the class [Runtime].
    - Calls to the logger are left out: they do not influence any result. *)

From Stdlib Require Import List ZArith NArith Bool String Ascii Lia.
From Stdlib Require Import Sorted Permutation.
Import ListNotations.


(* ===================================================================== *)
(** ** JavaScript strings *)
(* ===================================================================== *)

Definition jsstring := list N.

Module Js.

(** An ASCII literal of the source text. *)
Definition lit (s : string) : jsstring :=
  map N_of_ascii (list_ascii_of_string s).

(** The two characters of the source's messages a Rocq literal does not
    hold conveniently: the double quote and the em dash (U+2014). *)
Definition dquote : jsstring := [34%N].
Definition emdash : jsstring := [8212%N].

Fixpoint eqb (a b : jsstring) : bool :=
  match a, b with
  | [], [] => true
  | x :: a', y :: b' => N.eqb x y && eqb a' b'
  | _, _ => false
  end.

(** [s.length] *)
Definition length (s : jsstring) : Z := Z.of_nat (List.length s).

(** WhiteSpace and LineTerminator code points of ECMAScript, the ones
    [String.prototype.trim] removes. *)
Definition isWhiteSpace (c : N) : bool :=
  ((9 <=? c) && (c <=? 13) || (c =? 32) || (c =? 160) || (c =? 5760)
   || (8192 <=? c) && (c <=? 8202) || (c =? 8232) || (c =? 8233)
   || (c =? 8239) || (c =? 8287) || (c =? 12288) || (c =? 65279))%N.

Fixpoint trimStart (s : jsstring) : jsstring :=
  match s with
  | c :: r => if isWhiteSpace c then trimStart r else s
  | [] => []
  end.

Definition trimEnd (s : jsstring) : jsstring := rev (trimStart (rev s)).

(** [s.trim()] *)
Definition trim (s : jsstring) : jsstring := trimEnd (trimStart s).

(** [s.startsWith(p)] *)
Fixpoint startsWith (s p : jsstring) : bool :=
  match p, s with
  | [], _ => true
  | y :: p', x :: s' => N.eqb x y && startsWith s' p'
  | _ :: _, [] => false
  end.

(** [s.slice(n)] for [0 <= n] *)
Definition slice (n : nat) (s : jsstring) : jsstring := skipn n s.

(** [!s] on a string: only the empty string is falsy. *)
Definition falsy (s : jsstring) : bool :=
  match s with [] => true | _ :: _ => false end.

(** [o || d] where [o] is [undefined] or a string. *)
Definition or_default (o : option jsstring) (d : jsstring) : jsstring :=
  match o with
  | Some s => if falsy s then d else s
  | None => d
  end.

Definition isUpper (c : N) : bool := ((65 <=? c) && (c <=? 90))%N.
Definition isLower (c : N) : bool := ((97 <=? c) && (c <=? 122))%N.
Definition isDigit (c : N) : bool := ((48 <=? c) && (c <=? 57))%N.

(** The character class [[a-zA-Z0-9_]]. *)
Definition isWordChar (c : N) : bool :=
  isLower c || isUpper c || isDigit c || (c =? 95)%N.

End Js.


(* ===================================================================== *)
(** ** utils/errors.js *)
(* ===================================================================== *)

(** What a [throw] can carry in the modelled code: the repository's own
    [AppError], Mongoose's [ValidationError] (one entry per failing path),
    the server's duplicate-key error and a plain [Error] of a library. *)
Inductive exn : Type :=
| AppError (message : jsstring) (code : string) (httpStatus : Z)
| ValidationError (errors : list (string * string))
| MongoServerError (code : Z)
| Error (message : string).

Definition notFound (entity : jsstring) : exn :=
  AppError (entity ++ Js.lit " not found.") "NOT_FOUND" 404.
Definition badInput (message : jsstring) : exn :=
  AppError message "BAD_USER_INPUT" 400.
Definition conflict (message : jsstring) : exn :=
  AppError message "CONFLICT" 409.
Definition unauth_default : jsstring :=
  Js.lit "You need to be logged in to do that.".
Definition unauth (message : option jsstring) : exn :=
  AppError (match message with Some m => m | None => unauth_default end)
           "UNAUTHENTICATED" 401.

(** The class of an error, as the Apollo formatter of server.js reports it:
    the [extensions.code] of the error, [INTERNAL_SERVER_ERROR] when it has
    none. *)
Definition error_code (e : exn) : string :=
  match e with
  | AppError _ code _ => code
  | _ => "INTERNAL_SERVER_ERROR"
  end.

Definition error_message (e : exn) : option jsstring :=
  match e with
  | AppError m _ _ => Some m
  | _ => None
  end.

Definition is_BadInput (e : exn) : bool :=
  String.eqb (error_code e) "BAD_USER_INPUT".
Definition is_Unauthenticated (e : exn) : bool :=
  String.eqb (error_code e) "UNAUTHENTICATED".

(** Synchronous code that may throw. *)
Definition result (A : Type) : Type := (exn + A)%type.
Definition Ok {A} (a : A) : result A := inr a.
Definition Throw {A} (e : exn) : result A := inl e.

(** A call into a library: its value, or the message of the plain [Error]
    it throws (a library never throws the repository's [AppError]). *)
Definition lib_result (A : Type) : Type := (string + A)%type.
Definition of_lib {A} (r : lib_result A) : result A :=
  match r with
  | inl msg => Throw (Error msg)
  | inr a => Ok a
  end.

(* ===================================================================== *)
(** ** utils/validators.js (the helpers the resolvers call) *)
(* ===================================================================== *)

(** ["<fieldName>" is required — you can't leave it empty.] *)
Definition required_message (fieldName : string) : jsstring :=
  Js.dquote ++ Js.lit fieldName ++ Js.dquote ++ Js.lit " is required "
    ++ Js.emdash ++ Js.lit " you can't leave it empty.".

(** [requireField]: the value must exist and not be whitespace only. *)
Definition requireField (value : jsstring) (fieldName : string) : result unit :=
  if Js.falsy value || Js.eqb (Js.trim value) [] then
    Throw (badInput (required_message fieldName))
  else Ok tt.

(** [validatePassword]: 8+ code units, one upper-case letter, one
    lower-case letter, one digit; each regular expression is an
    unanchored character class, so [test] is [existsb]. *)
Definition validatePassword (password : jsstring) : result unit :=
  if Js.falsy password || (Js.length password <? 8)%Z then
    Throw (badInput (Js.lit "Password needs to be at least 8 characters."))
  else if negb (existsb Js.isUpper password) then
    Throw (badInput (Js.lit "Password needs at least one uppercase letter."))
  else if negb (existsb Js.isLower password) then
    Throw (badInput (Js.lit "Password needs at least one lowercase letter."))
  else if negb (existsb Js.isDigit password) then
    Throw (badInput (Js.lit "Password needs at least one number."))
  else Ok tt.

(** [/^[a-zA-Z0-9_]+$/.test(s)]: without the [m] flag [$] is the end of
    the input, so the test asks for a non-empty string of word characters. *)
Definition username_pattern (s : jsstring) : bool :=
  negb (Js.falsy s) && forallb Js.isWordChar s.

(* ===================================================================== *)
(** ** Data model *)
(* ===================================================================== *)

Definition ObjectId := N.
Definition Date := Z.     (* milliseconds since the epoch *)
Bind Scope N_scope with ObjectId.
Bind Scope Z_scope with Date.

(** A document of the [users] collection (models/User.js). [password] is
    [None] on a document loaded without the field: the schema declares it
    [select: false]. *)
Record User : Type := {
  _id        : ObjectId;
  username   : jsstring;
  email      : jsstring;
  password   : option jsstring;
  is_active  : bool;
  created_at : Date;
  updated_at : Date;
}.

(** A document of the [employees] collection (models/Employee.js). The
    salary is kept as an integer amount. *)
Module Employee.
Record t : Type := {
  _id             : ObjectId;
  first_name      : jsstring;
  last_name       : jsstring;
  email           : jsstring;
  gender          : jsstring;
  designation     : jsstring;
  salary          : Z;
  date_of_joining : Date;
  department      : jsstring;
  employee_photo  : option jsstring;
  created_at      : Date;
  updated_at      : Date;
}.
End Employee.

(** The object handed to [Employee.insertMany] by the seed script. *)
Module EmployeeInput.
Record t : Type := {
  first_name      : jsstring;
  last_name       : jsstring;
  email           : jsstring;
  gender          : jsstring;
  designation     : jsstring;
  salary          : Z;
  date_of_joining : Date;
  department      : jsstring;
}.
End EmployeeInput.

(** [AuthPayload] of graphql/typeDefs.js, as the [login] resolver builds it. *)
Module AuthPayload.
Record t : Type := {
  token      : jsstring;
  token_type : jsstring;
  expires_in : jsstring;
  user       : User;
}.
End AuthPayload.

(** [EmployeeList] of graphql/typeDefs.js. *)
Module EmployeeList.
Record t : Type := {
  total     : Z;
  employees : list Employee.t;
}.
End EmployeeList.

(** The claims of a decoded token. [userId] is [None] when the payload has
    no usable [userId]. *)
Record JwtPayload : Type := {
  userId : option ObjectId;
  iat    : Z;
  exp    : option Z;
}.

(** ** The platform: libraries and process environment

    - [toLowerCase], [toISOString]: the built-ins of String and Date;
    - [isEmail]: validator.js;
    - [bcrypt_hash plaintext rounds salt]: what [bcrypt.hash(plaintext,
      rounds)] resolves to when the library drew [salt];
    - [bcrypt_compare candidate hash]: what [bcrypt.compare] resolves to;
    - [jwt_sign userId secret expiresIn now] and
      [jwt_verify token secret now]: jsonwebtoken's [sign] of the payload
      [{ userId }] and [verify], which fail on a missing secret, a
      malformed, tampered or expired token;
    - [env_JWT_SECRET], [env_JWT_EXPIRES_IN]: [process.env]. *)
Class Runtime : Type := {
  toLowerCase        : jsstring -> jsstring;
  toISOString        : Date -> jsstring;
  isEmail            : jsstring -> bool;
  bcrypt_hash        : jsstring -> N -> jsstring -> jsstring;
  bcrypt_compare     : jsstring -> jsstring -> bool;
  jwt_sign           : ObjectId -> option jsstring -> jsstring -> Z -> lib_result jsstring;
  jwt_verify         : jsstring -> option jsstring -> Z -> lib_result JwtPayload;
  env_JWT_SECRET     : option jsstring;
  env_JWT_EXPIRES_IN : option jsstring;
}.

(** What the platform hands to one call: the clock reading and the salt
    bcryptjs draws if the call hashes a password. *)
Record Ambient : Type := {
  now        : Z;
  fresh_salt : jsstring;
}.

(** ** The store and the effect monad *)

Inductive bcrypt_event : Type :=
| HashCall (plaintext : jsstring) (rounds : N)
| CompareCall (candidate hash : jsstring).

Record World : Type := {
  users       : list User;
  employees   : list Employee.t;
  next_id     : ObjectId;            (* source of fresh [_id]s *)
  bcrypt_log  : list bcrypt_event;   (* bcrypt calls so far, oldest first *)
}.

Definition M (A : Type) : Type := World -> result A * World.

Definition ret {A} (a : A) : M A := fun w => (Ok a, w).
Definition throw {A} (e : exn) : M A := fun w => (Throw e, w).
Definition bind {A B} (c : M A) (k : A -> M B) : M B :=
  fun w => match c w with
           | (inr a, w') => k a w'
           | (inl e, w') => (inl e, w')
           end.
Definition lift {A} (r : result A) : M A := fun w => (r, w).

(** [try { c } catch (err) { h err }] *)
Definition try_catch {A} (c : M A) (h : exn -> M A) : M A :=
  fun w => match c w with
           | (inl e, w') => h e w'
           | (inr a, w') => (inr a, w')
           end.

Declare Scope m_scope.
Delimit Scope m_scope with M.
Notation "x <- c ;; k" := (bind c (fun x => k))
  (at level 61, c at next level, right associativity) : m_scope.
Notation "c ;;; k" := (bind c (fun _ => k))
  (at level 61, right associativity) : m_scope.
Local Open Scope m_scope.

Definition get_users : M (list User) := fun w => (Ok (users w), w).
Definition get_employees : M (list Employee.t) := fun w => (Ok (employees w), w).

Definition set_users (us : list User) : M unit :=
  fun w => (Ok tt, {| users := us; employees := employees w;
                      next_id := next_id w; bcrypt_log := bcrypt_log w |}).
Definition set_employees (es : list Employee.t) : M unit :=
  fun w => (Ok tt, {| users := users w; employees := es;
                      next_id := next_id w; bcrypt_log := bcrypt_log w |}).
Definition new_ObjectId : M ObjectId :=
  fun w => (Ok (next_id w),
            {| users := users w; employees := employees w;
               next_id := N.succ (next_id w); bcrypt_log := bcrypt_log w |}).
Definition record_bcrypt (ev : bcrypt_event) : M unit :=
  fun w => (Ok tt, {| users := users w; employees := employees w;
                      next_id := next_id w;
                      bcrypt_log := bcrypt_log w ++ [ev] |}).

(** Number of [bcrypt.compare] calls in a log. *)
Definition compare_calls (l : list bcrypt_event) : nat :=
  List.length (filter (fun ev => match ev with CompareCall _ _ => true | _ => false end) l).

Section Program.

Context {R : Runtime}.

(* ===================================================================== *)
(** ** models/User.js *)
(* ===================================================================== *)

(** The object handed to [User.create] or [User.insertMany]. *)
Record UserInput : Type := {
  in_username : jsstring;
  in_email    : jsstring;
  in_password : jsstring;
}.

(** The message of the first validator of a path that fails; each entry is
    (the validator holds, its message). *)
Fixpoint first_failure (checks : list (bool * string)) : option string :=
  match checks with
  | [] => None
  | (true, _) :: rest => first_failure rest
  | (false, msg) :: _ => Some msg
  end.

Definition check (holds : bool) (msg : string) : bool * string := (holds, msg).

Definition path_error (path : string) (checks : list (bool * string))
  : list (string * string) :=
  match first_failure checks with
  | Some msg => [(path, msg)]
  | None => []
  end.

(** Schema setters: [trim] on the username, [lowercase] and [trim] on the
    email. *)
Definition set_username (v : jsstring) : jsstring := Js.trim v.
Definition set_email (v : jsstring) : jsstring := Js.trim (toLowerCase v).

(** Schema validators, run on the values after the setters. *)
Definition User_validate (i : UserInput) : list (string * string) :=
  let u := set_username (in_username i) in
  let e := set_email (in_email i) in
  let p := in_password i in
  path_error "username"
    [ check (negb (Js.falsy u)) "Username is required.";
      check (3 <=? Js.length u)%Z "Username must be at least 3 characters.";
      check (Js.length u <=? 30)%Z "Username can't be longer than 30 characters.";
      check (username_pattern u) "Username can only have letters, numbers, and underscores." ]
  ++ path_error "email"
    [ check (negb (Js.falsy e)) "Email is required.";
      check (isEmail e) "That doesn't look like a valid email." ]
  ++ path_error "password"
    [ check (negb (Js.falsy p)) "Password is required.";
      check (8 <=? Js.length p)%Z "Password must be at least 8 characters." ].

(** The document [new User(input)] builds: setters applied, [is_active]
    defaulted to true, both timestamps set to the time of the write. *)
Definition new_User (amb : Ambient) (id : ObjectId) (i : UserInput) : User :=
  {| _id := id;
     username := set_username (in_username i);
     email := set_email (in_email i);
     password := Some (in_password i);
     is_active := true;
     created_at := now amb;
     updated_at := now amb |}.

Definition with_password (u : User) (p : option jsstring) : User :=
  {| _id := _id u; username := username u; email := email u;
     password := p; is_active := is_active u;
     created_at := created_at u; updated_at := updated_at u |}.

(** [userSchema.pre("save", ...)]: hash the password every time it changes. *)
Definition pre_save (amb : Ambient) (isModified_password : bool) (this : User)
  : M User :=
  if negb isModified_password then ret this
  else
    match password this with
    | Some plain =>
        record_bcrypt (HashCall plain 12) ;;;
        ret (with_password this (Some (bcrypt_hash plain 12 (fresh_salt amb))))
    | None => throw (Error "Illegal arguments: undefined, number")
    end.

(** [userSchema.methods.comparePassword] *)
Definition comparePassword (this : User) (candidate : jsstring) : M bool :=
  match password this with
  | Some hash =>
      record_bcrypt (CompareCall candidate hash) ;;;
      ret (bcrypt_compare candidate hash)
  | None => throw (Error "Illegal arguments: string, undefined")
  end.

(** [User.findOne(filter)]; the password is left out unless selected. *)
Definition User_findOne (filter : User -> bool) (select_password : bool)
  : M (option User) :=
  us <- get_users ;;
  ret (option_map (fun u => if select_password then u else with_password u None)
                  (find filter us)).

(** [userSchema.statics.findByCredential]: username OR lower-cased email,
    with [.select("+password")]. Mongoose casts the values of a filter
    through the setters of the schema before it compares: the username
    side is trimmed, the email side (already lower-cased by the method) is
    lower-cased and trimmed. An identifier typed with blanks around it
    finds the account all the same. *)
Definition User_findByCredential (usernameOrEmail : jsstring) : M (option User) :=
  User_findOne (fun u => Js.eqb (username u) (set_username usernameOrEmail)
                         || Js.eqb (email u)
                              (set_email (toLowerCase usernameOrEmail)))
               true.

(** [User.findById(id)]; an absent id matches nothing. *)
Definition User_findById (id : option ObjectId) : M (option User) :=
  match id with
  | Some i => User_findOne (fun u => N.eqb (_id u) i) false
  | None => ret None
  end.

(** Insertion under the two unique indexes (username, email). *)
Definition insert_user (u : User) : M unit :=
  us <- get_users ;;
  if existsb (fun v => Js.eqb (username v) (username u)
                       || Js.eqb (email v) (email u)) us
  then throw (MongoServerError 11000)
  else set_users (us ++ [u]).

(** [User.create(input)]: build, validate, run the save hook, insert. *)
Definition User_create (amb : Ambient) (i : UserInput) : M User :=
  id <- new_ObjectId ;;
  match User_validate i with
  | [] =>
      doc <- pre_save amb true (new_User amb id i) ;;
      insert_user doc ;;;
      ret doc
  | errs => throw (ValidationError errs)
  end.

(** [User.insertMany(inputs)]: every document is built and validated, then
    all are inserted in order. Save middleware does not run on this path. *)
Fixpoint build_many (amb : Ambient) (inputs : list UserInput) : M (list User) :=
  match inputs with
  | [] => ret []
  | i :: rest =>
      id <- new_ObjectId ;;
      match User_validate i with
      | [] => docs <- build_many amb rest ;; ret (new_User amb id i :: docs)
      | errs => throw (ValidationError errs)
      end
  end.

Fixpoint insert_all (docs : list User) : M unit :=
  match docs with
  | [] => ret tt
  | d :: rest => insert_user d ;;; insert_all rest
  end.

Definition User_insertMany (amb : Ambient) (inputs : list UserInput)
  : M (list User) :=
  docs <- build_many amb inputs ;;
  insert_all docs ;;;
  ret docs.

(** [User.deleteMany({})] *)
Definition User_deleteMany : M unit := set_users [].

(* ===================================================================== *)
(** ** middleware/auth.js *)
(* ===================================================================== *)

(** The part of the request the middleware reads:
    [req.headers.authorization]. *)
Record Request : Type := { authorization : option jsstring }.

(** The GraphQL context: [{ user, req }]. [user = None] is the anonymous
    identity, [user = Some account] the authenticated one. *)
Record Context : Type := { user : option User; req : Request }.

Definition anonymous (r : Request) : Context := {| user := None; req := r |}.
Definition authenticated (u : User) (r : Request) : Context :=
  {| user := Some u; req := r |}.

Definition buildContext (amb : Ambient) (r : Request) : M Context :=
  let authHeader := Js.or_default (authorization r) [] in
  if negb (Js.startsWith authHeader (Js.lit "Bearer ")) then ret (anonymous r)
  else
    let token := Js.trim (Js.slice 7 authHeader) in
    if Js.falsy token then ret (anonymous r)
    else
      try_catch
        (decoded <- lift (of_lib (jwt_verify token env_JWT_SECRET (now amb))) ;;
         u <- User_findById (userId decoded) ;;
         match u with
         | None => ret (anonymous r)
         | Some acc =>
             if negb (is_active acc) then ret (anonymous r)
             else ret (authenticated acc r)
         end)
        (fun _ => ret (anonymous r)).

Definition requireAuth (context : Context) : result User :=
  match user context with
  | None => Throw (unauth None)
  | Some u => Ok u
  end.

Definition signToken (amb : Ambient) (id : ObjectId) : result jsstring :=
  of_lib (jwt_sign id env_JWT_SECRET
                   (Js.or_default env_JWT_EXPIRES_IN (Js.lit "7d")) (now amb)).

(* ===================================================================== *)
(** ** models/Employee.js (the queries the modelled code runs) *)
(* ===================================================================== *)

(** [.sort({ created_at: -1 })]: newest first. Among documents created at
    the same instant the order is the store's to choose, and it need not be
    the same from one query to the next; this sort keeps them in the order
    of the collection. Whatever is stated about one list (its bound, its
    order, its members) holds for every such choice; a statement that
    relates the lists of two queries asks for distinct creation times, for
    which the newest-first order is the only one. *)
Fixpoint insert_desc (e : Employee.t) (l : list Employee.t) : list Employee.t :=
  match l with
  | [] => [e]
  | x :: r =>
      if (Employee.created_at x <? Employee.created_at e)%Z then e :: l
      else x :: insert_desc e r
  end.

Definition sort_created_desc (l : list Employee.t) : list Employee.t :=
  fold_right insert_desc [] l.

(** [.skip(n)] and [.limit(n)] of a query; a limit of 0 means no limit. *)
Definition query_skip (n : Z) (l : list Employee.t) : list Employee.t :=
  skipn (Z.to_nat n) l.
Definition query_limit (n : Z) (l : list Employee.t) : list Employee.t :=
  if (n =? 0)%Z then l else firstn (Z.to_nat n) l.

(** [Employee.find().sort({ created_at: -1 }).skip(skip).limit(limit)] *)
Definition Employee_find_page (skip limit : Z) : M (list Employee.t) :=
  es <- get_employees ;;
  ret (query_limit limit (query_skip skip (sort_created_desc es))).

(** [Employee.countDocuments()] *)
Definition Employee_countDocuments : M Z :=
  es <- get_employees ;;
  ret (Z.of_nat (List.length es)).

Definition one_of (v : jsstring) (values : list jsstring) : bool :=
  existsb (Js.eqb v) values.

Definition Employee_validate (i : EmployeeInput.t) : list (string * string) :=
  let fn := Js.trim (EmployeeInput.first_name i) in
  let ln := Js.trim (EmployeeInput.last_name i) in
  let em := Js.trim (toLowerCase (EmployeeInput.email i)) in
  let de := Js.trim (EmployeeInput.designation i) in
  let dp := Js.trim (EmployeeInput.department i) in
  path_error "first_name"
    [ check (negb (Js.falsy fn)) "First name is required.";
      check (2 <=? Js.length fn)%Z "First name needs at least 2 characters.";
      check (Js.length fn <=? 50)%Z "First name can't exceed 50 characters." ]
  ++ path_error "last_name"
    [ check (negb (Js.falsy ln)) "Last name is required.";
      check (2 <=? Js.length ln)%Z "Last name needs at least 2 characters.";
      check (Js.length ln <=? 50)%Z "Last name can't exceed 50 characters." ]
  ++ path_error "email"
    [ check (negb (Js.falsy em)) "Email is required.";
      check (isEmail em) "That doesn't look like a valid email." ]
  ++ path_error "gender"
    [ check (negb (Js.falsy (EmployeeInput.gender i))) "Gender is required.";
      check (one_of (EmployeeInput.gender i)
                    [Js.lit "Male"; Js.lit "Female"; Js.lit "Other"])
            "Gender must be Male, Female, or Other." ]
  ++ path_error "designation"
    [ check (negb (Js.falsy de)) "Designation is required.";
      check (Js.length de <=? 100)%Z "Designation can't exceed 100 characters." ]
  ++ path_error "salary"
    [ check (1000 <=? EmployeeInput.salary i)%Z "Salary has to be at least $1,000." ]
  ++ path_error "department"
    [ check (negb (Js.falsy dp)) "Department is required.";
      check (Js.length dp <=? 100)%Z "Department name can't exceed 100 characters." ].

Definition new_Employee (amb : Ambient) (id : ObjectId) (i : EmployeeInput.t)
  : Employee.t :=
  {| Employee._id := id;
     Employee.first_name := Js.trim (EmployeeInput.first_name i);
     Employee.last_name := Js.trim (EmployeeInput.last_name i);
     Employee.email := Js.trim (toLowerCase (EmployeeInput.email i));
     Employee.gender := EmployeeInput.gender i;
     Employee.designation := Js.trim (EmployeeInput.designation i);
     Employee.salary := EmployeeInput.salary i;
     Employee.date_of_joining := EmployeeInput.date_of_joining i;
     Employee.department := Js.trim (EmployeeInput.department i);
     Employee.employee_photo := None;
     Employee.created_at := now amb;
     Employee.updated_at := now amb |}.

Fixpoint build_many_employees (amb : Ambient) (inputs : list EmployeeInput.t)
  : M (list Employee.t) :=
  match inputs with
  | [] => ret []
  | i :: rest =>
      id <- new_ObjectId ;;
      match Employee_validate i with
      | [] => docs <- build_many_employees amb rest ;;
              ret (new_Employee amb id i :: docs)
      | errs => throw (ValidationError errs)
      end
  end.

(** Insertion under the unique index on the employee email. *)
Definition insert_employee (e : Employee.t) : M unit :=
  es <- get_employees ;;
  if existsb (fun v => Js.eqb (Employee.email v) (Employee.email e)) es
  then throw (MongoServerError 11000)
  else set_employees (es ++ [e]).

Fixpoint insert_all_employees (docs : list Employee.t) : M unit :=
  match docs with
  | [] => ret tt
  | d :: rest => insert_employee d ;;; insert_all_employees rest
  end.

Definition Employee_insertMany (amb : Ambient) (inputs : list EmployeeInput.t)
  : M (list Employee.t) :=
  docs <- build_many_employees amb inputs ;;
  insert_all_employees docs ;;;
  ret docs.

Definition Employee_deleteMany : M unit := set_employees [].

(* ===================================================================== *)
(** ** graphql/typeDefs.js: the [User] type *)
(* ===================================================================== *)

Inductive gqlValue : Type :=
| GID (id : ObjectId)
| GString (s : jsstring)
| GBoolean (b : bool)
| GDate (d : Date)
| GNull.

(** The fields the schema declares on [type User]. *)
Definition User_type_fields : list string :=
  ["_id"; "username"; "email"; "is_active"; "created_at"; "updated_at"]%string.

(** [u[name]]: the properties of a user document. *)
Definition User_property (name : string) (u : User) : gqlValue :=
  if String.eqb name "_id" then GID (_id u)
  else if String.eqb name "username" then GString (username u)
  else if String.eqb name "email" then GString (email u)
  else if String.eqb name "password" then
    match password u with Some h => GString h | None => GNull end
  else if String.eqb name "is_active" then GBoolean (is_active u)
  else if String.eqb name "created_at" then GDate (created_at u)
  else if String.eqb name "updated_at" then GDate (updated_at u)
  else GNull.

(** Field resolution on [User]: the two custom resolvers of
    [resolvers.User], the default property read for the rest. *)
Definition User_resolve (name : string) (u : User) : gqlValue :=
  if String.eqb name "created_at" then GString (toISOString (created_at u))
  else if String.eqb name "updated_at" then GString (toISOString (updated_at u))
  else User_property name u.

(** Execution of a selection set on a [User] value: a field the type does
    not declare is refused by validation, the others are resolved. *)
Definition execute_User (selection : list string) (u : User)
  : result (list (string * gqlValue)) :=
  if forallb (fun f => existsb (String.eqb f) User_type_fields) selection
  then Ok (map (fun f => (f, User_resolve f u)) selection)
  else Throw (AppError (Js.lit "Cannot query field on type User.")
                       "GRAPHQL_VALIDATION_FAILED" 400).

(* ===================================================================== *)
(** ** utils/validators.js: [validateEmail] *)
(* ===================================================================== *)

Definition validateEmail (email_arg : jsstring) : result unit :=
  if negb (isEmail email_arg) then
    Throw (badInput (Js.dquote ++ email_arg ++ Js.dquote
                     ++ Js.lit " doesn't look like a valid email address."))
  else Ok tt.

(* ===================================================================== *)
(** ** graphql/resolvers.js *)
(* ===================================================================== *)

Definition credentials_message : jsstring :=
  Js.lit "Those credentials don't match anything in our system. Double-check and try again.".

Definition deactivated_message : jsstring :=
  Js.lit "This account has been deactivated. Reach out to support if that's unexpected.".

(** [Query.login]. The condition [!user || !(await user.comparePassword(..))]
    evaluates left to right: with no user the comparison is not started. *)
Definition login (amb : Ambient) (usernameOrEmail password_arg : jsstring)
  : M AuthPayload.t :=
  lift (requireField usernameOrEmail "usernameOrEmail") ;;;
  lift (requireField password_arg "password") ;;;
  found <- User_findByCredential usernameOrEmail ;;
  match found with
  | None => throw (badInput credentials_message)
  | Some u =>
      matches <- comparePassword u password_arg ;;
      if negb matches then throw (badInput credentials_message)
      else if negb (is_active u) then throw (badInput deactivated_message)
      else
        tok <- lift (signToken amb (_id u)) ;;
        ret {| AuthPayload.token := tok;
               AuthPayload.token_type := Js.lit "Bearer";
               AuthPayload.expires_in :=
                 Js.or_default env_JWT_EXPIRES_IN (Js.lit "7d");
               AuthPayload.user := u |}
  end.

(** An optional [Int] argument: left out of the query, or given as [null]
    ([Given None]) or as an integer. *)
Inductive IntArg : Type :=
| Omitted
| Given (v : option Z).

(** A destructuring default ([{ page = 1 }]) replaces [undefined] only. *)
Definition default_to (a : IntArg) (d : Z) : option Z :=
  match a with
  | Omitted => Some d
  | Given v => v
  end.

(** The number [Math.max]/[Math.min] see: [null] converts to 0. *)
Definition ToNumber (v : option Z) : Z :=
  match v with
  | Some z => z
  | None => 0
  end.

Definition safePage (page : IntArg) : Z :=
  Z.max 1 (ToNumber (default_to page 1)).
Definition safeLimit (limit : IntArg) : Z :=
  Z.min 100 (Z.max 1 (ToNumber (default_to limit 20))).
Definition skip (page limit : IntArg) : Z :=
  (safePage page - 1) * safeLimit limit.

(** [Query.getAllEmployees] *)
Definition getAllEmployees (page limit : IntArg) (context : Context)
  : M EmployeeList.t :=
  lift (requireAuth context) ;;;
  es <- Employee_find_page (skip page limit) (safeLimit limit) ;;
  n <- Employee_countDocuments ;;
  ret {| EmployeeList.total := n; EmployeeList.employees := es |}.

(** [Query.me] *)
Definition me (context : Context) : M User :=
  lift (requireAuth context).

(** [Mutation.signup] *)
Definition signup (amb : Ambient) (username_arg email_arg password_arg : jsstring)
  : M User :=
  lift (requireField username_arg "username") ;;;
  lift (requireField email_arg "email") ;;;
  lift (requireField password_arg "password") ;;;
  lift (validateEmail email_arg) ;;;
  lift (validatePassword password_arg) ;;;
  if (Js.length username_arg <? 3)%Z then
    throw (badInput (Js.lit "Username must be at least 3 characters."))
  else if negb (username_pattern username_arg) then
    throw (badInput (Js.lit "Username can only have letters, numbers, and underscores "
                     ++ Js.emdash ++ Js.lit " no spaces."))
  else
    taken <- User_findOne
               (fun u => Js.eqb (username u) (Js.trim username_arg)
                         || Js.eqb (email u) (Js.trim (toLowerCase email_arg)))
               false ;;
    match taken with
    | Some t =>
        if Js.eqb (username t) (Js.trim username_arg) then
          throw (conflict (Js.lit "That username is already taken "
                           ++ Js.emdash ++ Js.lit " try a different one."))
        else throw (conflict (Js.lit "That email is already registered."))
    | None =>
        User_create amb {| in_username := Js.trim username_arg;
                           in_email := Js.trim email_arg;
                           in_password := password_arg |}
    end.

(* ===================================================================== *)
(** ** scripts/seed.js *)
(* ===================================================================== *)

Definition SAMPLE_USERS : list UserInput :=
  [ {| in_username := Js.lit "admin";
       in_email := Js.lit "admin@comp3133.ca";
       in_password := Js.lit "Admin1234" |};
    {| in_username := Js.lit "testuser";
       in_email := Js.lit "testuser@comp3133.ca";
       in_password := Js.lit "Test1234" |} ].

Definition sample_employee (fn ln em g de : string) (sal doj : Z)
                           (dp : string) : EmployeeInput.t :=
  {| EmployeeInput.first_name := Js.lit fn;
     EmployeeInput.last_name := Js.lit ln;
     EmployeeInput.email := Js.lit em;
     EmployeeInput.gender := Js.lit g;
     EmployeeInput.designation := Js.lit de;
     EmployeeInput.salary := sal;
     EmployeeInput.date_of_joining := doj;
     EmployeeInput.department := Js.lit dp |}.

(** [SAMPLE_EMPLOYEES] with [date_of_joining] already converted by
    [new Date(..)]. *)
Definition SAMPLE_EMPLOYEES : list EmployeeInput.t :=
  [ sample_employee "Alice" "Johnson" "alice.j@company.com" "Female"
      "Software Engineer" 85000 1647302400000 "Engineering";
    sample_employee "Bob" "Smith" "bob.smith@company.com" "Male"
      "Senior Software Engineer" 110000 1593561600000 "Engineering";
    sample_employee "Carol" "Davis" "carol.d@company.com" "Female"
      "Product Manager" 95000 1637366400000 "Product";
    sample_employee "David" "Lee" "david.lee@company.com" "Male"
      "UX Designer" 78000 1673308800000 "Design";
    sample_employee "Eva" "Martinez" "eva.m@company.com" "Female"
      "DevOps Engineer" 92000 1659657600000 "Engineering";
    sample_employee "Frank" "Wilson" "frank.w@company.com" "Male"
      "Data Analyst" 72000 1681689600000 "Analytics" ].

(** [seed()]: wipe both collections, insert the samples; a failure is
    printed and swallowed. *)
Definition seed (amb : Ambient) : M unit :=
  try_catch
    (User_deleteMany ;;;
     Employee_deleteMany ;;;
     User_insertMany amb SAMPLE_USERS ;;;
     Employee_insertMany amb SAMPLE_EMPLOYEES ;;;
     ret tt)
    (fun _ => ret tt).

End Program.

(* ===================================================================== *)
(** ** utils/validators.js: [validateObjectId] *)
(* ===================================================================== *)

(** The class [[a-f\d]] under the [i] flag. *)
Definition isHexDigit (c : N) : bool :=
  Js.isDigit c || ((97 <=? c) && (c <=? 102))%N || ((65 <=? c) && (c <=? 70))%N.

(** [/^[a-f\d]{24}$/i.test(s)] *)
Definition objectId_pattern (s : jsstring) : bool :=
  Nat.eqb (List.length s) 24 && forallb isHexDigit s.

Definition validateObjectId (id : jsstring) (fieldName : string) : result unit :=
  if Js.falsy id || negb (objectId_pattern id) then
    Throw (badInput (Js.dquote ++ Js.lit fieldName ++ Js.dquote
                     ++ Js.lit " is not a valid ID."))
  else Ok tt.

(** The ObjectId a string of 24 hexadecimal digits is cast to: the number
    the digits write in base 16. The resolvers cast validated strings only. *)
Definition hex_value (c : N) : N :=
  if Js.isDigit c then (c - 48)%N
  else if ((97 <=? c) && (c <=? 102))%N then (c - 87)%N
  else (c - 55)%N.

Definition ObjectId_of_hex (s : jsstring) : ObjectId :=
  fold_left (fun acc c => (acc * 16 + hex_value c)%N) s 0%N.

(* ===================================================================== *)
(** ** models/Employee.js: lookups by id *)
(* ===================================================================== *)

(** [Employee.findById(id)] *)
Definition Employee_findById (id : ObjectId) : M (option Employee.t) :=
  bind get_employees
       (fun es => ret (find (fun e => N.eqb (Employee._id e) id) es)).

(** The collection without the first document that satisfies [p]. *)
Fixpoint remove_first (p : Employee.t -> bool) (l : list Employee.t)
  : list Employee.t :=
  match l with
  | [] => []
  | x :: r => if p x then r else x :: remove_first p r
  end.

(** [Employee.findByIdAndDelete(id)]: deletes the document it finds and
    returns it. *)
Definition Employee_findByIdAndDelete (id : ObjectId) : M (option Employee.t) :=
  bind get_employees
       (fun es =>
          bind (set_employees (remove_first (fun e => N.eqb (Employee._id e) id) es))
               (fun _ => ret (find (fun e => N.eqb (Employee._id e) id) es))).

(* ===================================================================== *)
(** ** graphql/resolvers.js: [searchEmployeeById], [deleteEmployee] *)
(* ===================================================================== *)

(** [DeleteResponse] of graphql/typeDefs.js. *)
Module DeleteResponse.
Record t : Type := {
  success    : bool;
  message    : jsstring;
  deleted_id : jsstring;
}.
End DeleteResponse.

(** [Employee with ID "<eid>"], the entity [notFound] is called with. *)
Definition employee_entity (eid : jsstring) : jsstring :=
  Js.lit "Employee with ID " ++ Js.dquote ++ eid ++ Js.dquote.

(** [Query.searchEmployeeById] *)
Definition searchEmployeeById (eid : jsstring) (context : Context)
  : M Employee.t :=
  bind (lift (requireAuth context)) (fun _ =>
  bind (lift (validateObjectId eid "eid")) (fun _ =>
  bind (Employee_findById (ObjectId_of_hex eid)) (fun employee =>
  match employee with
  | None => throw (notFound (employee_entity eid))
  | Some e => ret e
  end))).

(** [Mutation.deleteEmployee] *)
Definition deleteEmployee (eid : jsstring) (context : Context)
  : M DeleteResponse.t :=
  bind (lift (requireAuth context)) (fun _ =>
  bind (lift (validateObjectId eid "eid")) (fun _ =>
  bind (Employee_findById (ObjectId_of_hex eid)) (fun employee =>
  match employee with
  | None => throw (notFound (employee_entity eid))
  | Some e =>
      bind (Employee_findByIdAndDelete (ObjectId_of_hex eid)) (fun _ =>
      ret {| DeleteResponse.success := true;
             DeleteResponse.message :=
               Js.dquote ++ Employee.first_name e ++ Js.lit " "
               ++ Employee.last_name e ++ Js.dquote
               ++ Js.lit " has been removed.";
             DeleteResponse.deleted_id := eid |})
  end))).

(* ===================================================================== *)
(** ** server.js: [formatError] *)
(* ===================================================================== *)

(** The error Apollo hands to the formatter: its message, its
    [extensions.code] if it has one, its path if it has one. *)
Module FormattedError.
Record t : Type := {
  message : jsstring;
  code    : option string;
  path    : option (list jsstring);
}.
End FormattedError.

Definition generic_message : jsstring :=
  Js.lit "Something went wrong on our end. Try again in a moment.".

(** [formattedError.extensions?.code || "INTERNAL_SERVER_ERROR"]: a missing
    and an empty code both fall back. *)
Definition code_or_internal (c : option string) : string :=
  match c with
  | Some EmptyString => "INTERNAL_SERVER_ERROR"
  | Some s => s
  | None => "INTERNAL_SERVER_ERROR"
  end.

(** [formatError]; [IS_PROD] is [NODE_ENV === "production"]. The result has
    a path only on the second [return]. *)
Definition formatError (IS_PROD : bool) (formattedError : FormattedError.t)
  : FormattedError.t :=
  let code := code_or_internal (FormattedError.code formattedError) in
  if IS_PROD && String.eqb code "INTERNAL_SERVER_ERROR" then
    {| FormattedError.message := generic_message;
       FormattedError.code := Some code;
       FormattedError.path := None |}
  else
    {| FormattedError.message := FormattedError.message formattedError;
       FormattedError.code := Some code;
       FormattedError.path := FormattedError.path formattedError |}.

(* ===================================================================== *)
(** ** config/db.js: [connectDB] *)
(* ===================================================================== *)

Definition MAX_RETRIES : nat := 5.
Definition RETRY_DELAY_MS : Z := 5000.

(** How a start-up ends: connected, or the process exited with a code. *)
Inductive startup : Type :=
| Connected
| Exited (code : Z).

(** What [connectDB] did: the outcome, the number of calls to
    [mongoose.connect] and the milliseconds spent waiting between them. *)
Record connect_run : Type := {
  outcome  : startup;
  attempts : nat;
  waited   : Z;
}.

(** [connectDB(retriesLeft)]. [connect k] tells whether the call number [k]
    (from 0) to [mongoose.connect] succeeds; [k] is the number of calls made
    before this one. *)
Fixpoint connectDB_from (connect : nat -> bool) (k : nat) (retriesLeft : nat)
  : connect_run :=
  if connect k then
    {| outcome := Connected; attempts := 1; waited := 0 |}
  else
    match retriesLeft with
    | S r =>
        let rest := connectDB_from connect (S k) r in
        {| outcome := outcome rest;
           attempts := S (attempts rest);
           waited := (RETRY_DELAY_MS + waited rest)%Z |}
    | O => {| outcome := Exited 1; attempts := 1; waited := 0 |}
    end.

(** [connectDB()], as server.js calls it: [retriesLeft = MAX_RETRIES]. *)
Definition connectDB (connect : nat -> bool) : connect_run :=
  connectDB_from connect 0 MAX_RETRIES.




(** ** Vocabulary of the further properties *)

(** The two messages of [signup]'s [conflict] errors. *)
Definition username_taken_message : jsstring :=
  Js.lit "That username is already taken " ++ Js.emdash
  ++ Js.lit " try a different one.".
Definition email_taken_message : jsstring :=
  Js.lit "That email is already registered.".

(** [x] may come before [y] in a list that is newest first. *)
Definition newer_first (x y : Employee.t) : Prop :=
  (Employee.created_at y <= Employee.created_at x)%Z.

(** A hexadecimal digit: [0-9], [a-f] or [A-F]. *)
Definition is_hex_code (c : N) : Prop :=
  (48 <= c <= 57 \/ 97 <= c <= 102 \/ 65 <= c <= 70)%N.

(** The message of [validateObjectId] for the field [eid]. *)
Definition invalid_eid_message : jsstring :=
  Js.dquote ++ Js.lit "eid" ++ Js.dquote ++ Js.lit " is not a valid ID.".

(** No two accounts share a username, no two share an address. *)
Definition unique_users (l : list User) : Prop :=
  NoDup (map username l) /\ NoDup (map email l).


(* ===================================================================== *)
(** ** A small platform to run the program on

    Stand-ins for the libraries, simple enough to evaluate: ASCII
    lower-casing, an address test that looks for [@], a "hash" that stores
    salt and plaintext behind [$] signs, and a token that lists the user id,
    the issue time and the signing secret. The general theorems below hold
    for every [Runtime]; this one serves to run the code on concrete
    requests. *)
(* ===================================================================== *)

Module Sample.

Definition lower (s : jsstring) : jsstring :=
  map (fun c => if Js.isUpper c then (c + 32)%N else c) s.

Definition iso (d : Date) : jsstring :=
  Js.lit "T" ++ [Z.to_N d].

Definition is_email (s : jsstring) : bool :=
  match s with
  | [] => false
  | c :: r => negb (N.eqb c 64) && existsb (N.eqb 64) r
  end.

Definition hash (plaintext : jsstring) (rounds : N) (salt : jsstring) : jsstring :=
  [36%N; rounds; 36%N] ++ salt ++ [36%N] ++ plaintext.

Fixpoint after_dollar (s : jsstring) : jsstring :=
  match s with
  | [] => []
  | c :: r => if N.eqb c 36 then r else after_dollar r
  end.

Definition compare (candidate h : jsstring) : bool :=
  match h with
  | 36%N :: _ :: 36%N :: r => Js.eqb (after_dollar r) candidate
  | _ => false
  end.

Definition sign (id : ObjectId) (secret : option jsstring)
                (expiresIn : jsstring) (t : Z) : lib_result jsstring :=
  match secret with
  | Some k => if Js.falsy k then inl "secretOrPrivateKey must have a value"%string
              else inr (id :: Z.to_N t :: k)
  | None => inl "secretOrPrivateKey must have a value"%string
  end.

Definition verify (tok : jsstring) (secret : option jsstring) (t : Z)
  : lib_result JwtPayload :=
  match tok, secret with
  | id :: issued :: k, Some k' =>
      if Js.eqb k k' then
        inr {| userId := Some id; iat := Z.of_N issued; exp := None |}
      else inl "invalid signature"%string
  | _, _ => inl "jwt malformed"%string
  end.

Definition runtime : Runtime :=
  {| toLowerCase := lower;
     toISOString := iso;
     isEmail := is_email;
     bcrypt_hash := hash;
     bcrypt_compare := compare;
     jwt_sign := sign;
     jwt_verify := verify;
     env_JWT_SECRET := Some (Js.lit "s3cret");
     env_JWT_EXPIRES_IN := None |}.

Definition amb : Ambient := {| now := 1000; fresh_salt := Js.lit "NaCl" |}.

Definition empty : World :=
  {| users := []; employees := []; next_id := 1; bcrypt_log := [] |}.

(** One active account, [alice] / [Passw0rd1], as [signup] stores it. *)
Definition alice : User :=
  {| _id := 7;
     username := Js.lit "alice";
     email := Js.lit "alice@x.com";
     password := Some (hash (Js.lit "Passw0rd1") 12 (Js.lit "NaCl"));
     is_active := true;
     created_at := 500;
     updated_at := 500 |}.

(** The same account, deactivated. *)
Definition alice_off : User :=
  {| _id := 7;
     username := Js.lit "alice";
     email := Js.lit "alice@x.com";
     password := Some (hash (Js.lit "Passw0rd1") 12 (Js.lit "NaCl"));
     is_active := false;
     created_at := 500;
     updated_at := 500 |}.

Definition with_users (us : list User) : World :=
  {| users := us; employees := []; next_id := 8; bcrypt_log := [] |}.

Definition bearer (tok : jsstring) : Request :=
  {| authorization := Some (Js.lit "Bearer " ++ tok) |}.

(** The store with [alice], the store with the deactivated [alice], and
the token [sign] issues for her at time 1000. *)
Definition store : World := with_users [alice].
Definition store_off : World := with_users [alice_off].
Definition alice_token : jsstring := 7%N :: 1000%N :: Js.lit "s3cret".

End Sample.

(** A store with three employees, for the runs below. *)
Module Staff.

Definition employee (id : ObjectId) (fn ln : string) (t : Date) : Employee.t :=
  {| Employee._id := id;
     Employee.first_name := Js.lit fn;
     Employee.last_name := Js.lit ln;
     Employee.email := Js.lit fn ++ Js.lit "@company.com";
     Employee.gender := Js.lit "Other";
     Employee.designation := Js.lit "Engineer";
     Employee.salary := 85000;
     Employee.date_of_joining := t;
     Employee.department := Js.lit "Engineering";
     Employee.employee_photo := None;
     Employee.created_at := t;
     Employee.updated_at := t |}.

Definition ann : Employee.t := employee 10 "Ann" "Lee" 100.
Definition bob : Employee.t := employee 11 "Bob" "Roy" 300.
Definition cyd : Employee.t := employee 12 "Cyd" "Poe" 200.

Definition store : World :=
  {| users := [Sample.alice]; employees := [ann; bob; cyd];
     next_id := 13; bcrypt_log := [] |}.

(** The ids of [ann] and [bob] as the client writes them. *)
Definition ann_id : jsstring := Js.lit "00000000000000000000000a".
Definition bob_id : jsstring := Js.lit "00000000000000000000000B".

Definition caller : Context :=
  authenticated Sample.alice {| authorization := None |}.

End Staff.

(* ===================================================================== *)
(** * Properties *)
(* ===================================================================== *)

Section Properties.

Context {R : Runtime}.

(** ** Vocabulary of the statements *)

(** One more bcrypt call on the log, nothing else touched. *)
Definition logged (w : World) (ev : bcrypt_event) : World :=
  {| users := users w; employees := employees w; next_id := next_id w;
     bcrypt_log := bcrypt_log w ++ [ev] |}.

(** The bearer value of a request: what follows the ["Bearer "] prefix of
    the Authorization header, trimmed; [None] when the header is absent or
    has another scheme. *)
Definition bearer_value (r : Request) : option jsstring :=
  let h := Js.or_default (authorization r) [] in
  if Js.startsWith h (Js.lit "Bearer ") then Some (Js.trim (Js.slice 7 h))
  else None.

(** The sentence of the specification: every login with well-formed fields
    runs the comparison exactly once, whether or not a record was found. *)
Definition compare_runs_once_always : Prop :=
  forall (amb : Ambient) (w : World) (id pw : jsstring),
    requireField id "usernameOrEmail" = Ok tt ->
    requireField pw "password" = Ok tt ->
    compare_calls (bcrypt_log (snd (login amb id pw w)))
    = S (compare_calls (bcrypt_log w)).

(** The sentence of the specification: the account a login returns never
    includes the password hash. *)
Definition login_account_without_secret : Prop :=
  forall (amb : Ambient) (w : World) (id pw : jsstring) (p : AuthPayload.t),
    fst (login amb id pw w) = Ok p ->
    password (AuthPayload.user p) = None.

(** Computations that leave the [users] collection and the bcrypt log
    alone. *)
Definition keeps_users {A} (c : M A) : Prop :=
  forall w, users (snd (c w)) = users w
            /\ bcrypt_log (snd (c w)) = bcrypt_log w.

(** ** JavaScript strings *)

Lemma js_eqb_eq (a b : jsstring) : Js.eqb a b = true <-> a = b.
Proof.
  revert b; induction a as [|x a IH]; intros [|y b]; simpl; split;
    try congruence; try discriminate.
  - intros H. apply andb_true_iff in H as [Hx Hr].
    apply N.eqb_eq in Hx. apply IH in Hr. congruence.
  - intros H. injection H as -> ->.
    apply andb_true_iff. split; [apply N.eqb_refl | now apply IH].
Qed.

Lemma js_eqb_refl (a : jsstring) : Js.eqb a a = true.
Proof. now apply js_eqb_eq. Qed.


Ltac run := unfold bind, lift, ret, throw, try_catch, get_users, get_employees,
              record_bcrypt, Ok, Throw in *; simpl in *.

(** ** Reads of the [users] collection *)

Lemma User_findOne_run (f : User -> bool) (sel : bool) (w : World) :
  User_findOne f sel w =
  (Ok (option_map (fun u => if sel then u else with_password u None)
                  (find f (users w))), w).
Proof. reflexivity. Qed.

Lemma User_findByCredential_run (id : jsstring) (w : World) :
  User_findByCredential id w =
  (Ok (find (fun u => Js.eqb (username u) (set_username id)
                      || Js.eqb (email u) (set_email (toLowerCase id)))
            (users w)), w).
Proof.
  unfold User_findByCredential. rewrite User_findOne_run.
  now destruct (find _ (users w)).
Qed.

Lemma User_findById_reads (id : option ObjectId) (w : World) :
  exists o, User_findById id w = (Ok o, w).
Proof.
  destruct id as [i|]; simpl.
  - rewrite User_findOne_run. eauto.
  - now exists None.
Qed.

Lemma comparePassword_run (u : User) (pw h : jsstring) (w : World) :
  password u = Some h ->
  comparePassword u pw w = (Ok (bcrypt_compare pw h), logged w (CompareCall pw h)).
Proof. intros Hp. unfold comparePassword. now rewrite Hp. Qed.

Lemma comparePassword_inv (u : User) (pw : jsstring) (w : World) (b : bool) :
  fst (comparePassword u pw w) = Ok b ->
  exists h, password u = Some h /\ bcrypt_compare pw h = b.
Proof.
  unfold comparePassword. destruct (password u) as [h|]; run.
  - intros H. exists h. split; [reflexivity | congruence].
  - discriminate.
Qed.

(** ** The field check of [login] and [signup] *)

Lemma requireField_cases (v : jsstring) (f : string) :
  requireField v f = Ok tt \/ requireField v f = Throw (badInput (required_message f)).
Proof. unfold requireField. destruct (_ || _); auto. Qed.

Lemma requireField_BadInput (v : jsstring) (f : string) (e : exn) :
  requireField v f = Throw e -> e = badInput (required_message f).
Proof.
  destruct (requireField_cases v f) as [H|H]; rewrite H; unfold Ok, Throw;
    congruence.
Qed.

Lemma Throw_badInput_inj (A : Type) (m m' : jsstring) :
  @Throw A (badInput m) = Throw (badInput m') -> m = m'.
Proof. unfold Throw, badInput. congruence. Qed.

(** ** [login], case by case *)

Lemma login_blank_identifier amb id pw w e :
  requireField id "usernameOrEmail" = Throw e ->
  login amb id pw w = (Throw e, w).
Proof. intros H. unfold login. run. now rewrite H. Qed.

Lemma login_blank_password amb id pw w e :
  requireField id "usernameOrEmail" = Ok tt ->
  requireField pw "password" = Throw e ->
  login amb id pw w = (Throw e, w).
Proof. intros H1 H2. unfold login. run. now rewrite H1, H2. Qed.

Lemma login_unknown amb id pw w :
  requireField id "usernameOrEmail" = Ok tt ->
  requireField pw "password" = Ok tt ->
  fst (User_findByCredential id w) = Ok None ->
  login amb id pw w = (Throw (badInput credentials_message), w).
Proof.
  intros H1 H2 H3. unfold login.
  rewrite User_findByCredential_run in *. run. rewrite H1, H2.
  injection H3 as ->. reflexivity.
Qed.

Lemma login_found amb id pw w u h :
  requireField id "usernameOrEmail" = Ok tt ->
  requireField pw "password" = Ok tt ->
  fst (User_findByCredential id w) = Ok (Some u) ->
  password u = Some h ->
  login amb id pw w =
  let w' := logged w (CompareCall pw h) in
  if negb (bcrypt_compare pw h) then (Throw (badInput credentials_message), w')
  else if negb (is_active u) then (Throw (badInput deactivated_message), w')
  else match signToken amb (_id u) with
       | inl e => (Throw e, w')
       | inr tok =>
           (Ok {| AuthPayload.token := tok;
                  AuthPayload.token_type := Js.lit "Bearer";
                  AuthPayload.expires_in :=
                    Js.or_default env_JWT_EXPIRES_IN (Js.lit "7d");
                  AuthPayload.user := u |}, w')
       end.
Proof.
  intros H1 H2 H3 Hp. unfold login.
  rewrite User_findByCredential_run in *. run. rewrite H1, H2.
  injection H3 as ->. simpl.
  rewrite (comparePassword_run u pw h w Hp).
  destruct (bcrypt_compare pw h); simpl; [|reflexivity].
  destruct (is_active u); simpl; [|reflexivity].
  now destruct (signToken amb (_id u)).
Qed.

(** ** Anti-enumeration *)

(** C1. A login fails the same way when no record matches the identifier
    and when a record matches but the password does not verify. For one
    request met in the two situations the error is the same [AppError] of
    code [BAD_USER_INPUT], message included; and for any two requests whose
    fields pass the presence check it is the credentials error in both. *)
Theorem login_failure_indistinguishable
  (amb1 amb2 : Ambient) (w1 w2 : World)
  (id1 pw1 id2 pw2 : jsstring) (u : User) :
  fst (User_findByCredential id1 w1) = Ok None ->
  fst (User_findByCredential id2 w2) = Ok (Some u) ->
  fst (comparePassword u pw2 w2) = Ok false ->
  (id1 = id2 -> pw1 = pw2 ->
   exists msg,
     fst (login amb1 id1 pw1 w1) = Throw (AppError msg "BAD_USER_INPUT" 400) /\
     fst (login amb2 id2 pw2 w2) = Throw (AppError msg "BAD_USER_INPUT" 400))
  /\
  (requireField id1 "usernameOrEmail" = Ok tt ->
   requireField pw1 "password" = Ok tt ->
   requireField id2 "usernameOrEmail" = Ok tt ->
   requireField pw2 "password" = Ok tt ->
   fst (login amb1 id1 pw1 w1) = Throw (badInput credentials_message) /\
   fst (login amb2 id2 pw2 w2) = Throw (badInput credentials_message)).
Proof.
  intros Hnone Hsome Hcmp.
  destruct (comparePassword_inv _ _ _ _ Hcmp) as (h & Hp & Hb).
  assert (Hwf : requireField id1 "usernameOrEmail" = Ok tt ->
                requireField pw1 "password" = Ok tt ->
                requireField id2 "usernameOrEmail" = Ok tt ->
                requireField pw2 "password" = Ok tt ->
                fst (login amb1 id1 pw1 w1) = Throw (badInput credentials_message) /\
                fst (login amb2 id2 pw2 w2) = Throw (badInput credentials_message)).
  { intros A1 A2 B1 B2. split.
    - now rewrite (login_unknown amb1 _ _ _ A1 A2 Hnone).
    - rewrite (login_found amb2 _ _ _ _ _ B1 B2 Hsome Hp). simpl.
      now rewrite Hb. }
  split; [|exact Hwf].
  intros <- <-.
  destruct (requireField_cases id1 "usernameOrEmail") as [A1|A1].
  - destruct (requireField_cases pw1 "password") as [A2|A2].
    + exists credentials_message. now apply Hwf.
    + exists (required_message "password").
      now rewrite !(login_blank_password _ _ _ _ _ A1 A2).
  - exists (required_message "usernameOrEmail").
    now rewrite !(login_blank_identifier _ _ _ _ _ A1).
Qed.

(** ** The deactivated account *)

Lemma deactivated_message_distinct : deactivated_message <> credentials_message.
Proof. intros H. apply js_eqb_eq in H. vm_compute in H. discriminate. Qed.

(** C6. A login that finds the record and verifies the password on an
    account whose [is_active] is false fails with the deactivation message,
    an error of class [BAD_USER_INPUT] that differs from the credentials
    error. The flag is consulted after the comparison only: the comparison
    is on the log when the error is raised, and with a password that does
    not verify the same account gets the credentials error. *)
Theorem login_deactivated
  (amb : Ambient) (w : World) (id pw : jsstring) (u : User) :
  requireField id "usernameOrEmail" = Ok tt ->
  requireField pw "password" = Ok tt ->
  fst (User_findByCredential id w) = Ok (Some u) ->
  fst (comparePassword u pw w) = Ok true ->
  is_active u = false ->
  fst (login amb id pw w) = Throw (badInput deactivated_message)
  /\ is_BadInput (badInput deactivated_message) = true
  /\ badInput deactivated_message <> badInput credentials_message
  /\ (exists h, password u = Some h /\
                bcrypt_log (snd (login amb id pw w))
                = bcrypt_log w ++ [CompareCall pw h])
  /\ (forall pw', requireField pw' "password" = Ok tt ->
                  fst (comparePassword u pw' w) = Ok false ->
                  fst (login amb id pw' w) = Throw (badInput credentials_message)).
Proof.
  intros H1 H2 Hf Hc Hact.
  destruct (comparePassword_inv _ _ _ _ Hc) as (h & Hp & Hb).
  rewrite (login_found amb _ _ _ _ _ H1 H2 Hf Hp). simpl. rewrite Hb, Hact. simpl.
  repeat split.
  - intros E. injection E as E. now apply deactivated_message_distinct.
  - now exists h.
  - intros pw' H2' Hc'.
    destruct (comparePassword_inv _ _ _ _ Hc') as (h' & Hp' & Hb').
    rewrite (login_found amb _ _ _ _ _ H1 H2' Hf Hp'). simpl. now rewrite Hb'.
Qed.

(** The deactivation error has no other origin: a login that ends with it
    has found a record, verified the password against its hash and then
    found the account inactive. *)
Lemma login_deactivated_only_then
  (amb : Ambient) (w : World) (id pw : jsstring) :
  fst (login amb id pw w) = Throw (badInput deactivated_message) ->
  exists u h,
    fst (User_findByCredential id w) = Ok (Some u) /\
    password u = Some h /\ bcrypt_compare pw h = true /\ is_active u = false.
Proof.
  intros H.
  destruct (requireField_cases id "usernameOrEmail") as [A1|A1].
  2:{ rewrite (login_blank_identifier _ _ _ _ _ A1) in H. simpl in H.
      apply Throw_badInput_inj, js_eqb_eq in H. vm_compute in H. discriminate. }
  destruct (requireField_cases pw "password") as [A2|A2].
  2:{ rewrite (login_blank_password _ _ _ _ _ A1 A2) in H. simpl in H.
      apply Throw_badInput_inj, js_eqb_eq in H. vm_compute in H. discriminate. }
  destruct (fst (User_findByCredential id w)) as [e|[u|]] eqn:Hf.
  - rewrite User_findByCredential_run in Hf. discriminate.
  - destruct (password u) as [h|] eqn:Hp.
    + rewrite (login_found amb _ _ _ _ _ A1 A2 Hf Hp) in H. simpl in H.
      destruct (bcrypt_compare pw h) eqn:Hb; simpl in H.
      * destruct (is_active u) eqn:Ha; simpl in H.
        -- unfold signToken, of_lib in H.
           destruct (jwt_sign _ _ _ _); discriminate.
        -- exists u, h. auto.
      * apply Throw_badInput_inj in H. symmetry in H.
        now apply deactivated_message_distinct in H.
    + unfold login in H. rewrite User_findByCredential_run in *. run.
      rewrite A1, A2 in H. injection Hf as Hf. rewrite Hf in H. simpl in H.
      unfold comparePassword in H. rewrite Hp in H. discriminate.
  - rewrite (login_unknown amb _ _ _ A1 A2 Hf) in H. simpl in H.
    apply Throw_badInput_inj in H. symmetry in H.
    now apply deactivated_message_distinct in H.
Qed.

(** ** How often the hash comparison runs *)

Lemma compare_calls_app (l1 l2 : list bcrypt_event) :
  compare_calls (l1 ++ l2) = compare_calls l1 + compare_calls l2.
Proof. unfold compare_calls. now rewrite filter_app, length_app. Qed.


(** C4, as the code has it. For a login with well-formed fields the
    comparison runs exactly once, against the stored hash, when a record
    is found; when none is found no bcrypt call is made at all: the
    condition short-circuits and the code has no dummy hash. *)
Theorem login_compare_calls
  (amb : Ambient) (w : World) (id pw : jsstring) :
  requireField id "usernameOrEmail" = Ok tt ->
  requireField pw "password" = Ok tt ->
  (fst (User_findByCredential id w) = Ok None ->
   bcrypt_log (snd (login amb id pw w)) = bcrypt_log w /\
   compare_calls (bcrypt_log (snd (login amb id pw w)))
   = compare_calls (bcrypt_log w))
  /\
  (forall u h,
     fst (User_findByCredential id w) = Ok (Some u) ->
     password u = Some h ->
     bcrypt_log (snd (login amb id pw w)) = bcrypt_log w ++ [CompareCall pw h] /\
     compare_calls (bcrypt_log (snd (login amb id pw w)))
     = S (compare_calls (bcrypt_log w))).
Proof.
  intros H1 H2. split.
  - intros Hn. now rewrite (login_unknown amb _ _ _ H1 H2 Hn).
  - intros u h Hf Hp.
    assert (E : bcrypt_log (snd (login amb id pw w))
                = bcrypt_log w ++ [CompareCall pw h]).
    { rewrite (login_found amb _ _ _ _ _ H1 H2 Hf Hp). simpl.
      destruct (bcrypt_compare pw h); simpl; [|reflexivity].
      destruct (is_active u); simpl; [|reflexivity].
      now destruct (signToken amb (_id u)). }
    split; [exact E|].
    rewrite E, compare_calls_app.
    change (compare_calls [CompareCall pw h]) with 1. lia.
Qed.

(** ** What a successful login returns *)

Lemma password_not_a_User_field :
  existsb (String.eqb "password") User_type_fields = false.
Proof. reflexivity. Qed.

Lemma execute_User_fields (sel : list string) (u : User)
                          (fields : list (string * gqlValue)) :
  execute_User sel u = Ok fields ->
  forall f v, In (f, v) fields ->
    In f User_type_fields /\ f <> "password"%string.
Proof.
  unfold execute_User.
  destruct (forallb _ sel) eqn:Hall; [|discriminate].
  intros E f v Hin. injection E as <-.
  apply in_map_iff in Hin as (g & Hg & Hsel). injection Hg as -> _.
  rewrite forallb_forall in Hall. specialize (Hall _ Hsel).
  apply existsb_exists in Hall as (x & Hx & Heq).
  apply String.eqb_eq in Heq. subst x. split; [exact Hx|].
  intros ->. simpl in Hx. intuition discriminate.
Qed.


(** What each declared field of [User] resolves to: the identity value of
    that name, the two dates as ISO strings. *)
Lemma User_resolve_declared (f : string) (u : User) :
  In f User_type_fields ->
  (f = "_id"%string /\ User_resolve f u = GID (_id u))
  \/ (f = "username"%string /\ User_resolve f u = GString (username u))
  \/ (f = "email"%string /\ User_resolve f u = GString (email u))
  \/ (f = "is_active"%string /\ User_resolve f u = GBoolean (is_active u))
  \/ (f = "created_at"%string
      /\ User_resolve f u = GString (toISOString (created_at u)))
  \/ (f = "updated_at"%string
      /\ User_resolve f u = GString (toISOString (updated_at u))).
Proof.
  unfold User_type_fields. simpl.
  intros [<- | [<- | [<- | [<- | [<- | [<- | []]]]]]]; auto 10.
Qed.

Lemma User_resolve_ignores_password (f : string) (u : User)
                                    (p : option jsstring) :
  In f User_type_fields ->
  User_resolve f (with_password u p) = User_resolve f u.
Proof.
  unfold User_type_fields. simpl.
  intros [<- | [<- | [<- | [<- | [<- | [<- | []]]]]]]; reflexivity.
Qed.

Lemma execute_User_ignores_password (sel : list string) (u : User)
                                    (p : option jsstring) :
  execute_User sel (with_password u p) = execute_User sel u.
Proof.
  unfold execute_User.
  destruct (forallb _ sel) eqn:Hall; [|reflexivity].
  f_equal. apply map_ext_in. intros f Hf.
  rewrite forallb_forall in Hall. specialize (Hall f Hf).
  apply existsb_exists in Hall as (x & Hx & Heq).
  apply String.eqb_eq in Heq. subst x.
  now rewrite User_resolve_ignores_password.
Qed.

Lemma execute_User_values (sel : list string) (u : User)
                          (fields : list (string * gqlValue)) :
  execute_User sel u = Ok fields ->
  forall f v, In (f, v) fields ->
    In f User_type_fields /\ v = User_resolve f u.
Proof.
  unfold execute_User.
  destruct (forallb _ sel) eqn:Hall; [|discriminate].
  intros E f v Hin. injection E as <-.
  apply in_map_iff in Hin as (g & Hg & Hsel). injection Hg as -> <-.
  rewrite forallb_forall in Hall. specialize (Hall _ Hsel).
  apply existsb_exists in Hall as (x & Hx & Heq).
  apply String.eqb_eq in Heq. subst x. now split.
Qed.

(** C3, as the code has it. A login that finds the record, verifies the
    password, finds the account active and gets a token from [signToken]
    returns that token, the type ["Bearer"], the configured time to live
    ([JWT_EXPIRES_IN], ["7d"] by default) and the document
    [findByCredential] loaded, which carries the stored hash next to the
    identity fields. The hash stays out of the response only through the
    schema: whatever the client selects on [User], each field of the
    response is a declared one and carries the identity value of its name
    (the id, the username, the address, the active flag, the two dates as
    ISO strings); the full selection gives exactly these six; the response
    is the same whatever the password field of the document holds; and a
    selection that names [password] is refused. *)
Theorem login_success
  (amb : Ambient) (w : World) (id pw : jsstring) (u : User) (tok : jsstring) :
  requireField id "usernameOrEmail" = Ok tt ->
  requireField pw "password" = Ok tt ->
  fst (User_findByCredential id w) = Ok (Some u) ->
  fst (comparePassword u pw w) = Ok true ->
  is_active u = true ->
  signToken amb (_id u) = Ok tok ->
  fst (login amb id pw w)
  = Ok {| AuthPayload.token := tok;
          AuthPayload.token_type := Js.lit "Bearer";
          AuthPayload.expires_in :=
            Js.or_default env_JWT_EXPIRES_IN (Js.lit "7d");
          AuthPayload.user := u |}
  /\ (exists h, password u = Some h /\ bcrypt_compare pw h = true)
  /\ (forall sel fields,
        execute_User sel u = Ok fields ->
        forall f v, In (f, v) fields ->
          In f User_type_fields /\ f <> "password"%string)
  /\ (forall sel, In "password"%string sel ->
        exists e, execute_User sel u = Throw e)
  /\ (forall sel fields,
        execute_User sel u = Ok fields ->
        forall f v, In (f, v) fields ->
          (f = "_id"%string /\ v = GID (_id u))
          \/ (f = "username"%string /\ v = GString (username u))
          \/ (f = "email"%string /\ v = GString (email u))
          \/ (f = "is_active"%string /\ v = GBoolean (is_active u))
          \/ (f = "created_at"%string
              /\ v = GString (toISOString (created_at u)))
          \/ (f = "updated_at"%string
              /\ v = GString (toISOString (updated_at u))))
  /\ execute_User User_type_fields u
     = Ok [ ("_id"%string, GID (_id u));
            ("username"%string, GString (username u));
            ("email"%string, GString (email u));
            ("is_active"%string, GBoolean (is_active u));
            ("created_at"%string, GString (toISOString (created_at u)));
            ("updated_at"%string, GString (toISOString (updated_at u))) ]
  /\ (forall sel p,
        execute_User sel (with_password u p) = execute_User sel u).
Proof.
  intros H1 H2 Hf Hc Hact Htok.
  destruct (comparePassword_inv _ _ _ _ Hc) as (h & Hp & Hb).
  split; [|split; [|split; [|split; [|split; [|split]]]]].
  - rewrite (login_found amb _ _ _ _ _ H1 H2 Hf Hp). simpl.
    rewrite Hb, Hact. simpl. unfold Ok in Htok. now rewrite Htok.
  - now exists h.
  - intros sel fields E f v Hin. eapply execute_User_fields; eauto.
  - intros sel Hin. unfold execute_User.
    destruct (forallb _ sel) eqn:Hall; [|eauto].
    rewrite forallb_forall in Hall. specialize (Hall _ Hin).
    rewrite password_not_a_User_field in Hall. discriminate.
  - intros sel fields E f v Hin.
    destruct (execute_User_values sel u fields E f v Hin) as [Hd ->].
    now apply User_resolve_declared.
  - reflexivity.
  - intros sel p. apply execute_User_ignores_password.
Qed.

(** ** The context resolver *)


Lemma falsy_nil (s : jsstring) : Js.falsy s = true <-> s = [].
Proof. destruct s; simpl; split; congruence. Qed.

(** [buildContext] in one equation: it returns without throwing, leaves the
    world as it found it, and decides as follows. *)
Lemma buildContext_run (amb : Ambient) (r : Request) (w : World) :
  buildContext amb r w =
  (Ok match bearer_value r with
      | None => anonymous r
      | Some tok =>
          if Js.falsy tok then anonymous r
          else match jwt_verify tok env_JWT_SECRET (now amb) with
               | inl _ => anonymous r
               | inr d =>
                   match fst (User_findById (userId d) w) with
                   | inr (Some acc) =>
                       if is_active acc then authenticated acc r
                       else anonymous r
                   | _ => anonymous r
                   end
               end
      end, w).
Proof.
  unfold buildContext, bearer_value.
  destruct (Js.startsWith _ _); simpl; [|reflexivity].
  destruct (Js.falsy _); simpl; [reflexivity|].
  unfold try_catch, bind, lift, of_lib.
  destruct (jwt_verify _ _ _) as [msg|d]; simpl; [reflexivity|].
  destruct (User_findById_reads (userId d) w) as [o Ho]. rewrite Ho. simpl.
  destruct o as [acc|]; [|reflexivity].
  now destruct (is_active acc).
Qed.

(** C2. The context resolver never throws and never writes. It yields the
    anonymous context when the bearer value is absent or empty, when the
    token does not verify, when the verified subject has no record and
    when the record is inactive; it yields the authenticated context of
    the account in the remaining case. *)
Theorem buildContext_identity (amb : Ambient) (r : Request) (w : World) :
  (exists ctx, buildContext amb r w = (Ok ctx, w))
  /\ (bearer_value r = None \/ bearer_value r = Some [] ->
      buildContext amb r w = (Ok (anonymous r), w))
  /\ (forall tok, bearer_value r = Some tok -> tok <> [] ->
      (forall msg, jwt_verify tok env_JWT_SECRET (now amb) = inl msg ->
         buildContext amb r w = (Ok (anonymous r), w))
      /\ (forall d, jwt_verify tok env_JWT_SECRET (now amb) = inr d ->
         (fst (User_findById (userId d) w) = Ok None ->
            buildContext amb r w = (Ok (anonymous r), w))
         /\ (forall acc, fst (User_findById (userId d) w) = Ok (Some acc) ->
               (is_active acc = false ->
                  buildContext amb r w = (Ok (anonymous r), w))
               /\ (is_active acc = true ->
                  buildContext amb r w = (Ok (authenticated acc r), w))))).
Proof.
  rewrite buildContext_run. split; [eauto|]. split.
  - intros [-> | ->]; reflexivity.
  - intros tok -> Hne.
    assert (Hf : Js.falsy tok = false).
    { destruct (Js.falsy tok) eqn:E; [|reflexivity].
      apply falsy_nil in E. contradiction. }
    rewrite Hf. split.
    + intros msg ->. reflexivity.
    + intros d ->. split.
      * intros E. unfold Ok in E. now rewrite E.
      * intros acc E. unfold Ok in E. rewrite E.
        split; intros ->; reflexivity.
Qed.

(** ** The authorization gate *)

(** C5. [requireAuth] throws the error of code [UNAUTHENTICATED] exactly
    when the context is anonymous; on an authenticated context it returns
    the very account the context holds, and so does the [me] query. *)
Theorem requireAuth_gate (context : Context) :
  ((exists e, requireAuth context = Throw e) <-> user context = None)
  /\ (user context = None ->
      requireAuth context = Throw (unauth None)
      /\ is_Unauthenticated (unauth None) = true
      /\ forall w, me context w = (Throw (unauth None), w))
  /\ (forall u, user context = Some u ->
      requireAuth context = Ok u
      /\ forall w, me context w = (Ok u, w)).
Proof.
  unfold me, lift, requireAuth.
  destruct (user context) as [acc|].
  - split; [|split].
    + split; [intros [e He]|intros He]; discriminate.
    + discriminate.
    + intros u E. injection E as ->. now split.
  - split; [|split].
    + split; [reflexivity|]. intros _. now exists (unauth None).
    + intros _. repeat split.
    + discriminate.
Qed.

(** ** Pagination of [getAllEmployees] *)

Lemma safeLimit_range (limit : IntArg) : (1 <= safeLimit limit <= 100)%Z.
Proof. unfold safeLimit. lia. Qed.

Lemma safePage_range (page : IntArg) : (1 <= safePage page)%Z.
Proof. unfold safePage. lia. Qed.

Lemma skip_nonneg (page limit : IntArg) : (0 <= skip page limit)%Z.
Proof.
  unfold skip. pose proof (safeLimit_range limit). pose proof (safePage_range page).
  nia.
Qed.

(** On GraphQL [Int] arguments (32-bit) every number of the computation is
    an integer below 2^53, where the arithmetic of JavaScript numbers is
    exact: the integers of the model are the numbers of the code. *)
Lemma skip_is_safe_integer (z : Z) (limit : IntArg) :
  (- 2 ^ 31 <= z < 2 ^ 31)%Z ->
  (0 <= skip (Given (Some z)) limit < 2 ^ 53)%Z.
Proof.
  intros Hz. split; [apply skip_nonneg|].
  unfold skip, safePage. simpl. pose proof (safeLimit_range limit). nia.
Qed.

Lemma query_limit_length (n : Z) (l : list Employee.t) :
  (1 <= n)%Z -> (Z.of_nat (List.length (query_limit n l)) <= n)%Z.
Proof.
  intros Hn. unfold query_limit.
  destruct (n =? 0)%Z eqn:E; [lia|].
  pose proof (firstn_le_length (Z.to_nat n) l). lia.
Qed.

(** C10. Whatever [page] and [limit] are (integers, [null] or left out,
    with the defaults 1 and 20), the limit in force lies in 1..100, the
    page in force is at least 1, and the query skips
    (page - 1) * limit >= 0 documents; a returned list is that page of the
    collection and has at most 100 entries; an authenticated call returns. *)
Theorem getAllEmployees_pagination
  (page limit : IntArg) (context : Context) (w : World) :
  (1 <= safeLimit limit <= 100)%Z
  /\ (1 <= safePage page)%Z
  /\ skip page limit = ((safePage page - 1) * safeLimit limit)%Z
  /\ (0 <= skip page limit)%Z
  /\ safePage Omitted = 1%Z /\ safeLimit Omitted = 20%Z
  /\ (forall z, safePage (Given (Some z)) = Z.max 1 z
                /\ safeLimit (Given (Some z)) = Z.min 100 (Z.max 1 z))
  /\ (forall res, fst (getAllEmployees page limit context w) = Ok res ->
        EmployeeList.employees res
        = firstn (Z.to_nat (safeLimit limit))
                 (skipn (Z.to_nat (skip page limit))
                        (sort_created_desc (employees w)))
        /\ (Z.of_nat (List.length (EmployeeList.employees res)) <= safeLimit limit)%Z
        /\ List.length (EmployeeList.employees res) <= 100)
  /\ (forall u, user context = Some u ->
        exists res, getAllEmployees page limit context w = (Ok res, w)).
Proof.
  pose proof (safeLimit_range limit) as HL.
  repeat (split; [first [exact HL | apply safePage_range | apply skip_nonneg
                        | reflexivity]|]).
  split; [intros z; split; reflexivity|].
  unfold getAllEmployees, requireAuth, Employee_find_page,
    Employee_countDocuments.
  split.
  - intros res. destruct (user context) as [acc|]; run; [|discriminate].
    intros E. injection E as <-. simpl.
    assert (Hq : query_limit (safeLimit limit)
                   (query_skip (skip page limit) (sort_created_desc (employees w)))
                 = firstn (Z.to_nat (safeLimit limit))
                     (skipn (Z.to_nat (skip page limit))
                        (sort_created_desc (employees w)))).
    { unfold query_limit, query_skip.
      destruct (safeLimit limit =? 0)%Z eqn:E0; [lia|reflexivity]. }
    split; [exact Hq|].
    pose proof (query_limit_length (safeLimit limit)
                  (query_skip (skip page limit) (sort_created_desc (employees w)))
                  (proj1 HL)).
    lia.
  - intros u Hu. rewrite Hu. run. eauto.
Qed.

(** ** [signup] and the username rules *)

Lemma word_char_not_space (c : N) :
  Js.isWordChar c = true -> Js.isWhiteSpace c = false.
Proof.
  unfold Js.isWordChar, Js.isWhiteSpace, Js.isLower, Js.isUpper, Js.isDigit.
  intros H. apply not_true_iff_false. intros W.
  rewrite ?orb_true_iff, ?andb_true_iff, ?N.leb_le, ?N.eqb_eq in H.
  rewrite ?orb_true_iff, ?andb_true_iff, ?N.leb_le, ?N.eqb_eq in W.
  lia.
Qed.

Lemma trimStart_word (s : jsstring) :
  match s with c :: _ => Js.isWordChar c = true | [] => True end ->
  Js.trimStart s = s.
Proof.
  destruct s as [|c r]; [reflexivity|]. simpl. intros H.
  now rewrite (word_char_not_space c H).
Qed.

(** A string of word characters has nothing to trim. *)
Lemma trim_word (s : jsstring) :
  forallb Js.isWordChar s = true -> Js.trim s = s.
Proof.
  intros H. unfold Js.trim, Js.trimEnd.
  rewrite forallb_forall in H.
  rewrite (trimStart_word s).
  2:{ destruct s; [exact I|]. apply H. now left. }
  rewrite (trimStart_word (rev s)); [apply rev_involutive|].
  destruct (rev s) as [|c r] eqn:E; [exact I|].
  apply H, in_rev. rewrite E. now left.
Qed.

Lemma validateEmail_cases (e : jsstring) :
  validateEmail e = Ok tt \/ exists msg, validateEmail e = Throw (badInput msg).
Proof. unfold validateEmail. destruct (negb _); eauto. Qed.

Lemma validatePassword_cases (p : jsstring) :
  validatePassword p = Ok tt \/ exists msg, validatePassword p = Throw (badInput msg).
Proof.
  unfold validatePassword.
  repeat match goal with |- context [if ?b then _ else _] => destruct b end;
    eauto.
Qed.

(** The two checks on the username that the resolver makes itself: a
    username shorter than 3 or with a character outside letters, digits
    and underscore is refused with a [BAD_USER_INPUT] error, and the store
    is as before. *)
Lemma signup_rejects_short_or_illformed
  (amb : Ambient) (w : World) (un em pw : jsstring) :
  (Js.length un < 3)%Z \/ forallb Js.isWordChar un = false ->
  exists msg, signup amb un em pw w = (Throw (badInput msg), w).
Proof.
  intros Hbad. unfold signup. run.
  destruct (requireField_cases un "username") as [E|E]; rewrite E; [|eexists; reflexivity].
  destruct (requireField_cases em "email") as [E1|E1]; rewrite E1; [|eexists; reflexivity].
  destruct (requireField_cases pw "password") as [E2|E2]; rewrite E2; [|eexists; reflexivity].
  destruct (validateEmail_cases em) as [E3|[m E3]]; rewrite E3; [|eexists; reflexivity].
  destruct (validatePassword_cases pw) as [E4|[m E4]]; rewrite E4; [|eexists; reflexivity].
  destruct (Js.length un <? 3)%Z eqn:Hlen; [eexists; reflexivity|].
  destruct Hbad as [Hs|Hc]; [apply Z.ltb_ge in Hlen; lia|].
  unfold username_pattern. rewrite Hc, andb_false_r. simpl.
  eexists; reflexivity.
Qed.

(** C9, the case the resolver leaves out. A username of more than 30
    word characters passes every check of the resolver; when no account
    has taken the name or the address, it is the schema that refuses it, in
    [User.create]: the error is Mongoose's [ValidationError], reported
    under [INTERNAL_SERVER_ERROR] and not under [BAD_USER_INPUT]. No
    record is created. *)
Theorem signup_long_username
  (amb : Ambient) (w : World) (un em pw : jsstring) :
  requireField un "username" = Ok tt ->
  requireField em "email" = Ok tt ->
  requireField pw "password" = Ok tt ->
  validateEmail em = Ok tt ->
  validatePassword pw = Ok tt ->
  forallb Js.isWordChar un = true ->
  (30 < Js.length un)%Z ->
  find (fun u => Js.eqb (username u) (Js.trim un)
                 || Js.eqb (email u) (Js.trim (toLowerCase em))) (users w) = None ->
  exists errs,
    fst (signup amb un em pw w) = Throw (ValidationError errs)
    /\ In ("username", "Username can't be longer than 30 characters.")%string errs
    /\ is_BadInput (ValidationError errs) = false
    /\ error_code (ValidationError errs) = "INTERNAL_SERVER_ERROR"%string
    /\ users (snd (signup amb un em pw w)) = users w.
Proof.
  intros E0 E1 E2 E3 E4 Hw Hlen Hfree.
  assert (Htrim : Js.trim un = un) by now apply trim_word.
  assert (Hne : Js.falsy un = false)
    by (destruct un; [unfold Js.length in Hlen; simpl in Hlen; lia|reflexivity]).
  assert (H3' : (3 <=? Js.length un)%Z = true) by (apply Z.leb_le; lia).
  assert (H30 : (Js.length un <=? 30)%Z = false) by (apply Z.leb_gt; lia).
  assert (H3 : (Js.length un <? 3)%Z = false) by (apply Z.ltb_ge; lia).
  unfold signup, bind, lift. rewrite E0, E1, E2, E3, E4, H3.
  assert (Hpat : username_pattern un = true).
  { unfold username_pattern. now rewrite Hw, Hne. }
  rewrite Hpat. cbn [negb]. rewrite User_findOne_run, Hfree. cbn [option_map Ok].
  unfold User_create, new_ObjectId, bind, User_validate, set_username.
  cbn [in_username]. rewrite !Htrim.
  unfold path_error at 1. cbn [first_failure check].
  rewrite Hne, H3', H30. cbn [negb first_failure].
  eexists. repeat split. now left.
Qed.

(** ** What reaches the [users] collection *)

(** The save path: a document [User.create] persists carries the bcrypt
    hash (12 rounds) of the submitted password. *)
Lemma User_create_stores_hash
  (amb : Ambient) (i : UserInput) (w w' : World) (doc : User) :
  User_create amb i w = (Ok doc, w') ->
  password doc = Some (bcrypt_hash (in_password i) 12 (fresh_salt amb))
  /\ users w' = users w ++ [doc]
  /\ bcrypt_log w' = bcrypt_log w ++ [HashCall (in_password i) 12].
Proof.
  unfold User_create, new_ObjectId, bind.
  destruct (User_validate i); [|discriminate].
  unfold pre_save, insert_user, record_bcrypt, get_users, set_users, bind, ret,
    throw. simpl.
  destruct (existsb _ (users w)); [discriminate|].
  intros E. injection E as <- <-. simpl. auto.
Qed.

Lemma signup_stores_hash
  (amb : Ambient) (un em pw : jsstring) (w w' : World) (doc : User) :
  signup amb un em pw w = (Ok doc, w') ->
  password doc = Some (bcrypt_hash pw 12 (fresh_salt amb))
  /\ users w' = users w ++ [doc].
Proof.
  unfold signup, bind, lift.
  destruct (requireField un _); [discriminate|].
  destruct (requireField em _); [discriminate|].
  destruct (requireField pw _); [discriminate|].
  destruct (validateEmail em); [discriminate|].
  destruct (validatePassword pw); [discriminate|].
  destruct (Js.length un <? 3)%Z; [discriminate|].
  destruct (negb (username_pattern un)); [discriminate|].
  rewrite User_findOne_run.
  destruct (find _ (users w)) as [t|]; cbn [option_map Ok].
  - destruct (Js.eqb _ _); discriminate.
  - intros E. apply User_create_stores_hash in E. tauto.
Qed.


(** The hook and [comparePassword] meet on the same field: checking a
    candidate against a document [User.create] returned asks bcrypt to
    compare it with the hash of the submitted password. *)
Lemma comparePassword_after_create
  (amb : Ambient) (i : UserInput) (w w' : World) (doc : User) :
  User_create amb i w = (Ok doc, w') ->
  forall candidate w1,
    fst (comparePassword doc candidate w1)
    = Ok (bcrypt_compare candidate
            (bcrypt_hash (in_password i) 12 (fresh_salt amb))).
Proof.
  intros E candidate w1.
  apply User_create_stores_hash in E as (Hp & _ & _).
  now rewrite (comparePassword_run doc candidate _ w1 Hp).
Qed.

Lemma keeps_users_bind {A B} (c : M A) (k : A -> M B) :
  keeps_users c -> (forall a, keeps_users (k a)) -> keeps_users (bind c k).
Proof.
  intros Hc Hk w. unfold bind. specialize (Hc w).
  destruct (c w) as [[e|a] w1]; simpl in *; [exact Hc|].
  destruct (Hk a w1) as [H1 H2]. destruct Hc as [H3 H4]. split; congruence.
Qed.

Lemma keeps_users_insert_employee (e : Employee.t) :
  keeps_users (insert_employee e).
Proof.
  intros w. unfold insert_employee, bind, get_employees, set_employees, throw.
  simpl. now destruct (existsb _ (employees w)).
Qed.

Lemma keeps_users_insert_all_employees (docs : list Employee.t) :
  keeps_users (insert_all_employees docs).
Proof.
  induction docs as [|d rest IH]; simpl.
  - now intros w.
  - apply keeps_users_bind; [apply keeps_users_insert_employee|now intros _].
Qed.

Lemma keeps_users_build_many_employees (amb : Ambient)
                                       (inputs : list EmployeeInput.t) :
  keeps_users (build_many_employees amb inputs).
Proof.
  induction inputs as [|i rest IH]; simpl.
  - now intros w.
  - apply keeps_users_bind; [now intros w|]. intros id.
    destruct (Employee_validate i); [|now intros w].
    apply keeps_users_bind; [exact IH|]. now intros docs w.
Qed.

Lemma keeps_users_Employee_insertMany (amb : Ambient)
                                      (inputs : list EmployeeInput.t) :
  keeps_users (Employee_insertMany amb inputs).
Proof.
  unfold Employee_insertMany.
  apply keeps_users_bind; [apply keeps_users_build_many_employees|]. intros docs.
  apply keeps_users_bind; [apply keeps_users_insert_all_employees|].
  now intros _ w.
Qed.

Lemma User_insertMany_pair (amb : Ambient) (i1 i2 : UserInput) (w0 : World) :
  users w0 = [] ->
  User_validate i1 = [] ->
  User_validate i2 = [] ->
  (users (snd (User_insertMany amb [i1; i2] w0))
   = [new_User amb (next_id w0) i1]
   \/ users (snd (User_insertMany amb [i1; i2] w0))
      = [new_User amb (next_id w0) i1; new_User amb (N.succ (next_id w0)) i2])
  /\ bcrypt_log (snd (User_insertMany amb [i1; i2] w0)) = bcrypt_log w0.
Proof.
  intros Hu V1 V2.
  unfold User_insertMany, build_many, bind, new_ObjectId, ret, throw, Ok, Throw.
  cbn [users employees next_id bcrypt_log]. rewrite V1, V2.
  unfold insert_all, insert_user, bind, get_users, set_users, ret, throw, Ok, Throw.
  cbn -[new_User Js.eqb]. rewrite Hu. cbn -[new_User Js.eqb].
  match goal with |- context [if ?b then _ else _] => destruct b end;
    cbn -[new_User Js.eqb]; auto.
Qed.

(** [seed] step by step: both collections are emptied, the users are
    inserted, then the employees unless the first insertion threw. *)
Lemma seed_run (amb : Ambient) (w : World) :
  snd (seed amb w) =
  let w0 := {| users := []; employees := []; next_id := next_id w;
               bcrypt_log := bcrypt_log w |} in
  match User_insertMany amb SAMPLE_USERS w0 with
  | (inl _, w1) => w1
  | (inr _, w1) => snd (Employee_insertMany amb SAMPLE_EMPLOYEES w1)
  end.
Proof.
  unfold seed, try_catch, User_deleteMany, Employee_deleteMany, set_users,
    set_employees. unfold bind at 1 2 3. cbn [users employees next_id bcrypt_log].
  destruct (User_insertMany amb SAMPLE_USERS _) as [[e|docs] w1];
    [reflexivity|].
  unfold bind, ret.
  now destruct (Employee_insertMany amb SAMPLE_EMPLOYEES w1) as [[e|a] w2].
Qed.

(** C8, where the code departs from it. The seed script inserts its
    sample users with [insertMany], a path on which the save hook does not
    run: once the samples pass schema validation, the collection holds the
    [admin] record with the password field equal to the plaintext
    ["Admin1234"], every record of the collection holds the plaintext of
    its sample, and bcrypt was not called. *)
Theorem seed_stores_plaintext (amb : Ambient) (w : World) :
  Forall (fun i => User_validate i = []) SAMPLE_USERS ->
  (exists d rest,
      users (snd (seed amb w)) = d :: rest
      /\ username d = Js.lit "admin"
      /\ password d = Some (Js.lit "Admin1234"))
  /\ (forall u, In u (users (snd (seed amb w))) ->
        exists i, In i SAMPLE_USERS /\ password u = Some (in_password i))
  /\ bcrypt_log (snd (seed amb w)) = bcrypt_log w.
Proof.
  intros Hv. rewrite seed_run. cbv zeta.
  set (w0 := {| users := []; employees := []; next_id := next_id w;
                bcrypt_log := bcrypt_log w |}).
  unfold SAMPLE_USERS in *.
  apply Forall_cons_iff in Hv as [V1 Hv].
  apply Forall_cons_iff in Hv as [V2 _].
  match type of V1 with User_validate ?i = _ => set (i1 := i) in * end.
  match type of V2 with User_validate ?i = _ => set (i2 := i) in * end.
  destruct (User_insertMany_pair amb i1 i2 w0 eq_refl V1 V2) as [Hu Hl].
  set (d1 := new_User amb (next_id w0) i1) in *.
  set (d2 := new_User amb (N.succ (next_id w0)) i2) in *.
  assert (Hfinal :
    exists wf, match User_insertMany amb [i1; i2] w0 with
               | (inl _, w1) => w1
               | (inr _, w1) => snd (Employee_insertMany amb SAMPLE_EMPLOYEES w1)
               end = wf
               /\ (users wf = [d1] \/ users wf = [d1; d2])
               /\ bcrypt_log wf = bcrypt_log w).
  { destruct (User_insertMany amb [i1; i2] w0) as [[e|docs] w1]; simpl in *.
    - exists w1. auto.
    - destruct (keeps_users_Employee_insertMany amb SAMPLE_EMPLOYEES w1)
        as [Ku Kl].
      eexists. split; [reflexivity|]. rewrite Ku, Kl. auto. }
  destruct Hfinal as (wf & -> & Hwf & Hlog).
  split; [|split; [|exact Hlog]].
  - exists d1. destruct Hwf as [-> | ->]; eexists; repeat split.
  - intros u Hin.
    assert (Hcase : u = d1 \/ u = d2).
    { destruct Hwf as [E|E]; rewrite E in Hin; simpl in Hin; intuition. }
    destruct Hcase as [-> | ->]; [exists i1|exists i2]; simpl; auto.
Qed.

(* ===================================================================== *)
(** * Further properties of the code *)
(* ===================================================================== *)

(** ** [trim] and the presence check *)

Lemma trimStart_nil_iff (s : jsstring) :
  Js.trimStart s = [] <-> forallb Js.isWhiteSpace s = true.
Proof.
  induction s as [|c r IH]; simpl; [tauto|].
  destruct (Js.isWhiteSpace c); simpl; [exact IH|].
  split; discriminate.
Qed.

Lemma trimStart_keeps_a_visible_head (s : jsstring) :
  Js.trimStart s <> [] -> forallb Js.isWhiteSpace (Js.trimStart s) = false.
Proof.
  induction s as [|c r IH]; simpl; [congruence|].
  destruct (Js.isWhiteSpace c) eqn:E; [exact IH|].
  intros _. simpl. now rewrite E.
Qed.

Lemma forallb_rev (f : N -> bool) (l : jsstring) :
  forallb f (rev l) = forallb f l.
Proof.
  induction l as [|x l IH]; simpl; [reflexivity|].
  rewrite forallb_app, IH. simpl. rewrite andb_true_r. apply andb_comm.
Qed.

Lemma trim_nil_iff (s : jsstring) :
  Js.trim s = [] <-> forallb Js.isWhiteSpace s = true.
Proof.
  unfold Js.trim, Js.trimEnd. split.
  - intros H. apply (f_equal (@rev N)) in H. rewrite rev_involutive in H.
    simpl in H. apply trimStart_nil_iff in H. rewrite forallb_rev in H.
    destruct (Js.trimStart s) eqn:E.
    + now apply trimStart_nil_iff.
    + rewrite <- E in H. rewrite trimStart_keeps_a_visible_head in H;
        [discriminate|]. rewrite E. discriminate.
  - intros H. apply trimStart_nil_iff in H. now rewrite H.
Qed.

Lemma forallb_false_iff (f : N -> bool) (l : jsstring) :
  forallb f l = false <-> exists c, In c l /\ f c = false.
Proof.
  induction l as [|x l IH]; simpl.
  - split; [discriminate|]. intros (c & [] & _).
  - destruct (f x) eqn:E; simpl.
    + rewrite IH. split.
      * intros (c & Hc & Hf). eauto.
      * intros (c & [<- | Hc] & Hf); [congruence|eauto].
    + split; [|reflexivity]. intros _. eauto.
Qed.

Lemma requireField_visible_iff (v : jsstring) (f : string) :
  requireField v f = Ok tt <->
  exists c, In c v /\ Js.isWhiteSpace c = false.
Proof.
  rewrite <- forallb_false_iff. unfold requireField.
  destruct (Js.falsy v || Js.eqb (Js.trim v) []) eqn:E.
  - split; [discriminate|]. intros H.
    apply orb_true_iff in E as [E|E].
    + apply falsy_nil in E. subst v. discriminate.
    + apply js_eqb_eq, trim_nil_iff in E. congruence.
  - split; [|reflexivity]. intros _.
    apply orb_false_iff in E as [_ E].
    destruct (forallb Js.isWhiteSpace v) eqn:F; [|reflexivity].
    apply trim_nil_iff in F. rewrite F in E. discriminate.
Qed.

Lemma requireField_visible (v : jsstring) (f : string) (c : N) :
  In c v -> Js.isWhiteSpace c = false -> requireField v f = Ok tt.
Proof. intros Hc Hw. apply requireField_visible_iff. eauto. Qed.

(** X1. [requireField] accepts a value exactly when it holds a code unit
    that is not white space: the empty string and every string made of
    blanks, tabs, line ends, no-break spaces or byte-order marks is
    refused, with the [BAD_USER_INPUT] error naming the field. *)
Theorem requireField_accepts_iff (v : jsstring) (f : string) :
  (requireField v f = Ok tt <->
   exists c, In c v /\ Js.isWhiteSpace c = false)
  /\ (requireField v f <> Ok tt ->
      requireField v f = Throw (badInput (required_message f)))
  /\ (requireField v f = Ok tt <-> Js.trim v <> []).
Proof.
  split; [apply requireField_visible_iff|]. split.
  - intros H. destruct (requireField_cases v f); [contradiction|assumption].
  - rewrite requireField_visible_iff, <- forallb_false_iff. split.
    + intros H E. apply trim_nil_iff in E. congruence.
    + intros H. destruct (forallb Js.isWhiteSpace v) eqn:F; [|reflexivity].
      apply trim_nil_iff in F. contradiction.
Qed.

(** ** [signup], outcome by outcome *)

Lemma upper_not_space (c : N) : Js.isUpper c = true -> Js.isWhiteSpace c = false.
Proof.
  intros H. apply word_char_not_space. unfold Js.isWordChar.
  rewrite H. now rewrite orb_true_r.
Qed.

Lemma validatePassword_requireField (pw : jsstring) :
  validatePassword pw = Ok tt -> requireField pw "password" = Ok tt.
Proof.
  unfold validatePassword.
  destruct (Js.falsy pw || _); [discriminate|].
  destruct (existsb Js.isUpper pw) eqn:E; [|discriminate]. intros _.
  apply existsb_exists in E as (c & Hc & Hu).
  apply (requireField_visible pw "password" c Hc (upper_not_space c Hu)).
Qed.

Lemma validatePassword_length (pw : jsstring) :
  validatePassword pw = Ok tt -> (8 <= Js.length pw)%Z.
Proof.
  unfold validatePassword.
  destruct (Js.falsy pw); simpl; [discriminate|].
  destruct (Js.length pw <? 8)%Z eqn:E; [discriminate|].
  intros _. now apply Z.ltb_ge.
Qed.

Lemma word_requireField (un : jsstring) (f : string) :
  forallb Js.isWordChar un = true -> un <> [] -> requireField un f = Ok tt.
Proof.
  intros Hw Hne. destruct un as [|c r]; [contradiction|].
  simpl in Hw. apply andb_true_iff in Hw as [Hc _].
  apply (requireField_visible (c :: r) f c (or_introl eq_refl)
           (word_char_not_space c Hc)).
Qed.

Lemma find_none_iff (f : User -> bool) (l : list User) :
  find f l = None <-> forall v, In v l -> f v = false.
Proof.
  split; [apply find_none|].
  induction l as [|x l IH]; simpl; [reflexivity|]. intros H.
  rewrite (H x (or_introl eq_refl)). apply IH. intros v Hv. apply H. now right.
Qed.

Lemma existsb_false_iff (f : User -> bool) (l : list User) :
  existsb f l = false <-> forall v, In v l -> f v = false.
Proof.
  induction l as [|x l IH]; simpl; [tauto|].
  rewrite orb_false_iff, IH. split.
  - intros [Hx Hl] v [<- | Hv]; auto.
  - intros H. split; [apply H; now left|]. intros v Hv. apply H. now right.
Qed.

(** X2. The successful [signup]. A username of 3 to 30 word characters, an
    address given without surrounding blanks that validator.js accepts
    both as typed and in its stored (lower-cased) form, a password that
    passes [validatePassword], and no account holding the name or the
    address: the call returns the new document and appends exactly it to
    the collection. The document has the next id, the username as typed,
    the lower-cased address, the bcrypt hash (12 rounds) of the password
    in place of the password, [is_active] true and both timestamps at the
    time of the call; bcrypt is called once, to hash. *)
Theorem signup_success
  (amb : Ambient) (w : World) (un em pw : jsstring) :
  forallb Js.isWordChar un = true ->
  (3 <= Js.length un <= 30)%Z ->
  requireField em "email" = Ok tt ->
  Js.trim em = em ->
  isEmail em = true ->
  Js.trim (toLowerCase em) <> [] ->
  isEmail (Js.trim (toLowerCase em)) = true ->
  validatePassword pw = Ok tt ->
  (forall v, In v (users w) ->
     username v <> un /\ email v <> Js.trim (toLowerCase em)) ->
  let doc := {| _id := next_id w;
                username := un;
                email := Js.trim (toLowerCase em);
                password := Some (bcrypt_hash pw 12 (fresh_salt amb));
                is_active := true;
                created_at := now amb;
                updated_at := now amb |} in
  signup amb un em pw w
  = (Ok doc,
     {| users := users w ++ [doc];
        employees := employees w;
        next_id := N.succ (next_id w);
        bcrypt_log := bcrypt_log w ++ [HashCall pw 12] |}).
Proof.
  intros Hw [Hlo Hhi] Hem Htrim Hmail Hne Hmail' Hpw Hfree doc.
  assert (Hun : un <> []).
  { intros ->. unfold Js.length in Hlo. simpl in Hlo. lia. }
  assert (Htu : Js.trim un = un) by now apply trim_word.
  assert (Hfalsy : Js.falsy un = false) by (destruct un; [congruence|reflexivity]).
  assert (Hfe : Js.falsy (Js.trim (toLowerCase em)) = false).
  { destruct (Js.trim (toLowerCase em)); [congruence|reflexivity]. }
  assert (Hfp : Js.falsy pw = false).
  { pose proof (validatePassword_length pw Hpw) as L.
    destruct pw; [unfold Js.length in L; simpl in L; lia|reflexivity]. }
  assert (H3 : (Js.length un <? 3)%Z = false) by (apply Z.ltb_ge; lia).
  assert (H3' : (3 <=? Js.length un)%Z = true) by (apply Z.leb_le; lia).
  assert (H30 : (Js.length un <=? 30)%Z = true) by (apply Z.leb_le; lia).
  assert (H8 : (8 <=? Js.length pw)%Z = true).
  { apply Z.leb_le. now apply validatePassword_length. }
  assert (Hpat : username_pattern un = true).
  { unfold username_pattern. now rewrite Hw, Hfalsy. }
  assert (Hnone : find (fun u => Js.eqb (username u) (Js.trim un)
                     || Js.eqb (email u) (Js.trim (toLowerCase em))) (users w)
                  = None).
  { apply find_none_iff. intros v Hv. destruct (Hfree v Hv) as [A B].
    rewrite Htu. apply orb_false_iff. split; apply not_true_iff_false;
      intros E; apply js_eqb_eq in E; contradiction. }
  assert (Hidx : existsb (fun v => Js.eqb (username v) un
                     || Js.eqb (email v) (Js.trim (toLowerCase em))) (users w)
                 = false).
  { apply existsb_false_iff. intros v Hv. destruct (Hfree v Hv) as [A B].
    apply orb_false_iff. split; apply not_true_iff_false;
      intros E; apply js_eqb_eq in E; contradiction. }
  unfold signup, bind, lift.
  rewrite (word_requireField un "username" Hw Hun), Hem,
    (validatePassword_requireField pw Hpw).
  unfold validateEmail. rewrite Hmail. cbn [negb]. rewrite Hpw, H3, Hpat.
  cbn [negb]. rewrite User_findOne_run, Hnone. cbn [option_map Ok].
  unfold User_create, new_ObjectId, bind, User_validate, set_username, set_email.
  cbn [in_username in_email in_password]. rewrite Htrim, !Htu.
  unfold path_error. cbn [first_failure check].
  rewrite Hfalsy, H3', H30, Hpat, Hfe, Hmail', Hfp, H8.
  cbn [negb first_failure app].
  unfold pre_save, new_User, set_username, set_email, record_bcrypt, bind, ret,
    with_password.
  cbn [negb password in_username in_email in_password _id username email
       is_active created_at updated_at users employees next_id bcrypt_log].
  rewrite ?Htrim, ?Htu.
  unfold insert_user, get_users, set_users, bind, ret, throw, Ok, Throw.
  cbn [username email users employees next_id bcrypt_log].
  rewrite Hidx. reflexivity.
Qed.

(** X3. A [signup] that names a taken username or a taken address never
    reaches the insertion: it throws, an input error if a field check
    fails first and otherwise one of the two [CONFLICT] errors, and it
    leaves the store and the bcrypt log as they were. *)
Theorem signup_taken
  (amb : Ambient) (w : World) (un em pw : jsstring) (t : User) :
  In t (users w) ->
  username t = Js.trim un \/ email t = Js.trim (toLowerCase em) ->
  exists e,
    signup amb un em pw w = (Throw e, w)
    /\ (is_BadInput e = true
        \/ e = conflict username_taken_message
        \/ e = conflict email_taken_message).
Proof.
  intros Hin Hmatch. unfold signup, bind, lift.
  destruct (requireField_cases un "username") as [E|E]; rewrite E;
    [|eexists; split; [reflexivity|now left]].
  destruct (requireField_cases em "email") as [E1|E1]; rewrite E1;
    [|eexists; split; [reflexivity|now left]].
  destruct (requireField_cases pw "password") as [E2|E2]; rewrite E2;
    [|eexists; split; [reflexivity|now left]].
  destruct (validateEmail_cases em) as [E3|[m E3]]; rewrite E3;
    [|eexists; split; [reflexivity|now left]].
  destruct (validatePassword_cases pw) as [E4|[m E4]]; rewrite E4;
    [|eexists; split; [reflexivity|now left]].
  destruct (Js.length un <? 3)%Z;
    [eexists; split; [reflexivity|now left]|].
  destruct (negb (username_pattern un));
    [eexists; split; [reflexivity|now left]|].
  cbn [negb]. rewrite User_findOne_run.
  destruct (find _ (users w)) as [t0|] eqn:Hf; cbn [option_map Ok].
  - destruct (Js.eqb (username _) (Js.trim un));
      eexists; (split; [reflexivity|]); right; [left|right]; reflexivity.
  - exfalso. pose proof (find_none _ _ Hf t Hin) as Hno. cbv beta in Hno.
    apply orb_false_iff in Hno as [A B].
    destruct Hmatch as [M|M]; apply (proj2 (js_eqb_eq _ _)) in M.
    + rewrite M in A. discriminate A.
    + rewrite M in B. discriminate B.
Qed.

Lemma NoDup_snoc (l : list jsstring) (x : jsstring) :
  NoDup l -> ~ In x l -> NoDup (l ++ [x]).
Proof.
  induction 1 as [|y l Hy Hl IH]; simpl; intros Hx.
  - constructor; [intros []|constructor].
  - constructor.
    + rewrite in_app_iff. intros [H|[H|[]]]; [contradiction|].
      apply Hx. now left.
    + apply IH. intros H. apply Hx. now right.
Qed.

Lemma User_create_users (amb : Ambient) (i : UserInput) (w : World) :
  users (snd (User_create amb i w)) = users w
  \/ exists doc,
       users (snd (User_create amb i w)) = users w ++ [doc]
       /\ forall v, In v (users w) ->
            username v <> username doc /\ email v <> email doc.
Proof.
  unfold User_create, new_ObjectId, bind.
  destruct (User_validate i); [|now left].
  unfold pre_save, insert_user, record_bcrypt, get_users, set_users, bind, ret,
    throw. simpl.
  destruct (existsb _ (users w)) eqn:E; [now left|].
  right. eexists. split; [reflexivity|].
  intros v Hv. rewrite existsb_false_iff in E. specialize (E v Hv).
  cbv beta in E. apply orb_false_iff in E as [A B].
  split; intros H; apply (proj2 (js_eqb_eq _ _)) in H; simpl in H.
  - rewrite H in A. discriminate A.
  - rewrite H in B. discriminate B.
Qed.

Lemma signup_users (amb : Ambient) (w : World) (un em pw : jsstring) :
  users (snd (signup amb un em pw w)) = users w
  \/ exists doc,
       users (snd (signup amb un em pw w)) = users w ++ [doc]
       /\ forall v, In v (users w) ->
            username v <> username doc /\ email v <> email doc.
Proof.
  unfold signup, bind, lift.
  destruct (requireField un _); [now left|].
  destruct (requireField em _); [now left|].
  destruct (requireField pw _); [now left|].
  destruct (validateEmail em); [now left|].
  destruct (validatePassword pw); [now left|].
  destruct (Js.length un <? 3)%Z; [now left|].
  destruct (negb (username_pattern un)); [now left|].
  rewrite User_findOne_run.
  destruct (find _ (users w)) as [t|]; cbn [option_map Ok].
  - destruct (Js.eqb _ _); now left.
  - apply User_create_users.
Qed.

(** X4. [signup] keeps the accounts unique: if no two accounts of the
    collection share a username and no two share an address, the same
    holds after the call, whatever its arguments and its outcome. *)
Theorem signup_keeps_unique
  (amb : Ambient) (w : World) (un em pw : jsstring) :
  unique_users (users w) ->
  unique_users (users (snd (signup amb un em pw w))).
Proof.
  intros [Hu He].
  destruct (signup_users amb w un em pw) as [-> | (doc & -> & Hfresh)];
    [now split|].
  unfold unique_users. rewrite !map_app. simpl.
  split; apply NoDup_snoc; trivial; intros Hin;
    apply in_map_iff in Hin as (v & Hv & Hin);
    destruct (Hfresh v Hin); contradiction.
Qed.

Lemma requireField_any_name (v : jsstring) (f f' : string) :
  requireField v f = Ok tt -> requireField v f' = Ok tt.
Proof. unfold requireField. now destruct (_ || _). Qed.

Lemma signup_inv (amb : Ambient) (w w1 : World) (un em pw : jsstring)
                 (doc : User) :
  signup amb un em pw w = (Ok doc, w1) ->
  requireField un "username" = Ok tt
  /\ requireField pw "password" = Ok tt
  /\ username_pattern un = true
  /\ find (fun u => Js.eqb (username u) (Js.trim un)
                    || Js.eqb (email u) (Js.trim (toLowerCase em))) (users w)
     = None
  /\ User_create amb {| in_username := Js.trim un; in_email := Js.trim em;
                        in_password := pw |} w = (Ok doc, w1).
Proof.
  unfold signup, bind, lift.
  destruct (requireField un _) as [|[]] eqn:E0; [discriminate|].
  destruct (requireField em _); [discriminate|].
  destruct (requireField pw _) as [|[]] eqn:E2; [discriminate|].
  destruct (validateEmail em); [discriminate|].
  destruct (validatePassword pw); [discriminate|].
  destruct (Js.length un <? 3)%Z; [discriminate|].
  destruct (username_pattern un) eqn:Hp; [|discriminate]. cbn [negb].
  rewrite User_findOne_run.
  destruct (find _ (users w)) as [t|] eqn:Hf; cbn [option_map Ok].
  - destruct (Js.eqb _ _); discriminate.
  - intros E. repeat split; assumption.
Qed.

Lemma User_create_inv (amb : Ambient) (i : UserInput) (w w' : World)
                      (doc : User) :
  User_create amb i w = (Ok doc, w') ->
  doc = with_password (new_User amb (next_id w) i)
          (Some (bcrypt_hash (in_password i) 12 (fresh_salt amb)))
  /\ users w' = users w ++ [doc].
Proof.
  unfold User_create, new_ObjectId, bind.
  destruct (User_validate i); [|discriminate].
  unfold pre_save, insert_user, record_bcrypt, get_users, set_users, bind, ret,
    throw. simpl.
  destruct (existsb _ (users w)); [discriminate|].
  intros E. injection E as <- <-. simpl. auto.
Qed.

Lemma find_snoc (f : User -> bool) (l : list User) (d : User) :
  (forall v, In v l -> f v = false) -> f d = true ->
  find f (l ++ [d]) = Some d.
Proof.
  intros Hl Hd. induction l as [|x l IH]; simpl.
  - now rewrite Hd.
  - rewrite (Hl x (or_introl eq_refl)). apply IH.
    intros v Hv. apply Hl. now right.
Qed.

(** X5. Who signed up can log in. After a successful [signup], a [login]
    with the same username and password on the resulting store returns the
    new account with a token for its id, provided bcrypt accepts the
    password against the hash it made of it, no older account has the
    lower-cased username as its address (the value [findByCredential]
    compares addresses with), and the token is signed. *)
Theorem signup_then_login
  (amb amb' : Ambient) (w w1 : World) (un em pw : jsstring)
  (doc : User) (tok : jsstring) :
  signup amb un em pw w = (Ok doc, w1) ->
  bcrypt_compare pw (bcrypt_hash pw 12 (fresh_salt amb)) = true ->
  (forall v, In v (users w) -> email v <> set_email (toLowerCase un)) ->
  signToken amb' (_id doc) = Ok tok ->
  fst (login amb' un pw w1)
  = Ok {| AuthPayload.token := tok;
          AuthPayload.token_type := Js.lit "Bearer";
          AuthPayload.expires_in :=
            Js.or_default env_JWT_EXPIRES_IN (Js.lit "7d");
          AuthPayload.user := doc |}.
Proof.
  intros Hs Hb Hold Htok.
  destruct (signup_inv amb w w1 un em pw doc Hs) as (R1 & R2 & Hpat & Hnone & Hc).
  destruct (User_create_inv amb _ w w1 doc Hc) as [Hdoc Hus].
  assert (Htu : Js.trim un = un).
  { apply trim_word. unfold username_pattern in Hpat.
    now apply andb_true_iff in Hpat as [_ Hpat]. }
  assert (Hname : username doc = un).
  { rewrite Hdoc. simpl. unfold set_username. now rewrite !Htu. }
  assert (Hpass : password doc = Some (bcrypt_hash pw 12 (fresh_salt amb))).
  { now rewrite Hdoc. }
  assert (Hact : is_active doc = true) by now rewrite Hdoc.
  assert (Hfind : fst (User_findByCredential un w1) = Ok (Some doc)).
  { rewrite User_findByCredential_run, Hus. simpl. f_equal.
    apply find_snoc.
    - intros v Hv. pose proof (find_none _ _ Hnone v Hv) as Hno.
      cbv beta in Hno.
      apply orb_false_iff in Hno as [A _].
      unfold set_username. rewrite Htu.
      rewrite Htu in A. apply orb_false_iff. split; [exact A|].
      apply not_true_iff_false. intros E. apply js_eqb_eq in E.
      now apply (Hold v Hv).
    - unfold set_username. rewrite Htu, Hname, js_eqb_refl. reflexivity. }
  rewrite (login_found amb' un pw w1 doc _
             (requireField_any_name un _ "usernameOrEmail" R1) R2 Hfind Hpass).
  simpl. rewrite Hb, Hact. simpl. unfold Ok in Htok. now rewrite Htok.
Qed.

(** ** The account of a context, and the token round trip *)

Lemma User_findById_inv (id : option ObjectId) (w : World) (acc : User) :
  fst (User_findById id w) = Ok (Some acc) ->
  exists i stored,
    id = Some i /\ In stored (users w) /\ _id stored = i
    /\ acc = with_password stored None.
Proof.
  destruct id as [i|]; [|discriminate]. unfold User_findById.
  rewrite User_findOne_run. cbn [fst].
  destruct (find _ (users w)) as [stored|] eqn:Hf; simpl; [|discriminate].
  intros E. injection E as <-. apply find_some in Hf as [Hin Hid].
  apply N.eqb_eq in Hid. exists i, stored. auto.
Qed.

(** X6. The account an authenticated context holds is an active record of
    the collection, loaded without its password: whatever the request,
    [buildContext] never puts the hash into the context, and [me] on that
    context returns the account without it. *)
Theorem buildContext_account
  (amb : Ambient) (r : Request) (w : World) (ctx : Context) (acc : User) :
  fst (buildContext amb r w) = Ok ctx ->
  user ctx = Some acc ->
  password acc = None
  /\ is_active acc = true
  /\ (exists stored, In stored (users w) /\ acc = with_password stored None)
  /\ me ctx w = (Ok acc, w).
Proof.
  rewrite buildContext_run. simpl. intros E Hu. injection E as <-.
  assert (Hme : forall c, user c = Some acc -> me c w = (Ok acc, w)).
  { intros c Hc. unfold me, lift, requireAuth. now rewrite Hc. }
  destruct (bearer_value r) as [tok|]; [|discriminate].
  destruct (Js.falsy tok); [discriminate|].
  destruct (jwt_verify _ _ _) as [msg|d]; [discriminate|].
  destruct (fst (User_findById (userId d) w)) as [e|[a|]] eqn:Hf;
    try discriminate.
  destruct (is_active a) eqn:Ha; [|discriminate].
  simpl in Hu. injection Hu as ->.
  destruct (User_findById_inv _ _ _ Hf) as (i & stored & _ & Hin & _ & ->).
  split; [reflexivity|]. split; [exact Ha|]. split; [now exists stored|].
  now apply Hme.
Qed.

Lemma login_ok_inv (amb : Ambient) (w : World) (id pw : jsstring)
                   (p : AuthPayload.t) :
  fst (login amb id pw w) = Ok p ->
  In (AuthPayload.user p) (users w)
  /\ is_active (AuthPayload.user p) = true
  /\ signToken amb (_id (AuthPayload.user p)) = Ok (AuthPayload.token p).
Proof.
  intros H.
  destruct (requireField_cases id "usernameOrEmail") as [A1|A1].
  2:{ rewrite (login_blank_identifier _ _ _ _ _ A1) in H. discriminate. }
  destruct (requireField_cases pw "password") as [A2|A2].
  2:{ rewrite (login_blank_password _ _ _ _ _ A1 A2) in H. discriminate. }
  destruct (fst (User_findByCredential id w)) as [e|[u|]] eqn:Hf.
  - rewrite User_findByCredential_run in Hf. discriminate.
  - assert (Hin : In u (users w)).
    { rewrite User_findByCredential_run in Hf. simpl in Hf.
      injection Hf as Hf. now apply find_some in Hf as [Hin _]. }
    destruct (password u) as [h|] eqn:Hp.
    + rewrite (login_found amb _ _ _ _ _ A1 A2 Hf Hp) in H. simpl in H.
      destruct (bcrypt_compare pw h); simpl in H; [|discriminate].
      destruct (is_active u) eqn:Ha; simpl in H; [|discriminate].
      destruct (signToken amb (_id u)) as [e|tok] eqn:Ht; [discriminate|].
      simpl in H. injection H as <-. simpl. auto.
    + unfold login in H. rewrite User_findByCredential_run in *. run.
      rewrite A1, A2 in H. injection Hf as Hf. rewrite Hf in H. simpl in H.
      unfold comparePassword in H. rewrite Hp in H. discriminate.
  - rewrite (login_unknown amb _ _ _ A1 A2 Hf) in H. discriminate.
Qed.

Lemma find_by_id_unique (l : list User) (u : User) :
  NoDup (map _id l) -> In u l ->
  find (fun v => N.eqb (_id v) (_id u)) l = Some u.
Proof.
  induction l as [|x l IH]; simpl; [intros _ []|].
  intros Hnd Hin. inversion Hnd as [|? ? Hx Hl]; subst.
  destruct Hin as [-> | Hin].
  - now rewrite N.eqb_refl.
  - destruct (N.eqb (_id x) (_id u)) eqn:E; [|now apply IH].
    apply N.eqb_eq in E. exfalso. apply Hx. rewrite E.
    now apply in_map.
Qed.

Lemma startsWith_nil (s : jsstring) : Js.startsWith s [] = true.
Proof. now destruct s. Qed.

Lemma bearer_value_of_header (tok : jsstring) :
  bearer_value {| authorization := Some (Js.lit "Bearer " ++ tok) |}
  = Some (Js.trim tok).
Proof.
  unfold bearer_value. cbn -[Js.trim]. now rewrite startsWith_nil.
Qed.

(** X7. The token round trip. A token [login] returned, sent back as
    [Bearer <token>], authenticates the account [login] returned (without
    its password), on a store whose ids are pairwise distinct, when the
    token has no blanks around it and jsonwebtoken verifies it to the
    account's id. *)
Theorem login_then_buildContext
  (amb amb' : Ambient) (w : World) (id pw : jsstring)
  (p : AuthPayload.t) (d : JwtPayload) :
  fst (login amb id pw w) = Ok p ->
  NoDup (map _id (users w)) ->
  Js.trim (AuthPayload.token p) = AuthPayload.token p ->
  AuthPayload.token p <> [] ->
  jwt_verify (AuthPayload.token p) env_JWT_SECRET (now amb') = inr d ->
  userId d = Some (_id (AuthPayload.user p)) ->
  let r := {| authorization := Some (Js.lit "Bearer " ++ AuthPayload.token p) |} in
  buildContext amb' r w
  = (Ok (authenticated (with_password (AuthPayload.user p) None) r), w).
Proof.
  intros Hl Hnd Htrim Hne Hv Hid r.
  destruct (login_ok_inv amb w id pw p Hl) as (Hin & Hact & _).
  rewrite buildContext_run. unfold r. rewrite bearer_value_of_header, Htrim.
  destruct (Js.falsy (AuthPayload.token p)) eqn:Hf.
  { apply falsy_nil in Hf. contradiction. }
  rewrite Hv, Hid. unfold User_findById. rewrite User_findOne_run.
  cbn [fst]. rewrite (find_by_id_unique (users w) _ Hnd Hin). simpl.
  now rewrite Hact.
Qed.

Lemma login_world (amb : Ambient) (w : World) (id pw : jsstring) :
  snd (login amb id pw w) = w
  \/ exists h, snd (login amb id pw w) = logged w (CompareCall pw h).
Proof.
  destruct (requireField_cases id "usernameOrEmail") as [A1|A1].
  2:{ left. now rewrite (login_blank_identifier _ _ _ _ _ A1). }
  destruct (requireField_cases pw "password") as [A2|A2].
  2:{ left. now rewrite (login_blank_password _ _ _ _ _ A1 A2). }
  destruct (fst (User_findByCredential id w)) as [e|[u|]] eqn:Hf.
  - rewrite User_findByCredential_run in Hf. discriminate.
  - destruct (password u) as [h|] eqn:Hp.
    + right. exists h.
      rewrite (login_found amb _ _ _ _ _ A1 A2 Hf Hp). simpl.
      destruct (bcrypt_compare pw h); simpl; [|reflexivity].
      destruct (is_active u); simpl; [|reflexivity].
      now destruct (signToken amb (_id u)).
    + left. unfold login. rewrite User_findByCredential_run in *. run.
      rewrite A1, A2. injection Hf as Hf. rewrite Hf. simpl.
      unfold comparePassword. now rewrite Hp.
  - left. now rewrite (login_unknown amb _ _ _ A1 A2 Hf).
Qed.

(** X8. [login] only reads: whatever the request and its outcome, both
    collections and the id counter are as before, and the only bcrypt call
    it can add to the log is one comparison of the submitted password; it
    never hashes. *)
Theorem login_read_only (amb : Ambient) (w : World) (id pw : jsstring) :
  users (snd (login amb id pw w)) = users w
  /\ employees (snd (login amb id pw w)) = employees w
  /\ next_id (snd (login amb id pw w)) = next_id w
  /\ (bcrypt_log (snd (login amb id pw w)) = bcrypt_log w
      \/ exists h, bcrypt_log (snd (login amb id pw w))
                   = bcrypt_log w ++ [CompareCall pw h]).
Proof.
  destruct (login_world amb w id pw) as [-> | [h ->]]; simpl; eauto 6.
Qed.

(** ** The pages of [getAllEmployees] *)

Lemma getAllEmployees_run
  (page limit : IntArg) (context : Context) (w : World) (u : User) :
  user context = Some u ->
  getAllEmployees page limit context w
  = (Ok {| EmployeeList.total := Z.of_nat (List.length (employees w));
           EmployeeList.employees :=
             firstn (Z.to_nat (safeLimit limit))
                    (skipn (Z.to_nat (skip page limit))
                           (sort_created_desc (employees w))) |}, w).
Proof.
  intros Hu. unfold getAllEmployees, requireAuth, Employee_find_page,
    Employee_countDocuments. rewrite Hu. run.
  unfold query_limit, query_skip.
  pose proof (safeLimit_range limit).
  destruct (safeLimit limit =? 0)%Z eqn:E0; [lia|reflexivity].
Qed.

Lemma getAllEmployees_ok_inv
  (page limit : IntArg) (context : Context) (w : World) (res : EmployeeList.t) :
  fst (getAllEmployees page limit context w) = Ok res ->
  res = {| EmployeeList.total := Z.of_nat (List.length (employees w));
           EmployeeList.employees :=
             firstn (Z.to_nat (safeLimit limit))
                    (skipn (Z.to_nat (skip page limit))
                           (sort_created_desc (employees w))) |}.
Proof.
  destruct (user context) as [u|] eqn:Hu.
  - rewrite (getAllEmployees_run page limit context w u Hu). simpl.
    intros E. now injection E.
  - unfold getAllEmployees, requireAuth. rewrite Hu. discriminate.
Qed.

Lemma In_insert_desc (e y : Employee.t) (l : list Employee.t) :
  In y (insert_desc e l) <-> y = e \/ In y l.
Proof.
  induction l as [|x r IH]; simpl.
  - intuition.
  - destruct (Employee.created_at x <? Employee.created_at e)%Z; simpl.
    + intuition.
    + rewrite IH. intuition.
Qed.

Lemma In_sort_created_desc (y : Employee.t) (l : list Employee.t) :
  In y (sort_created_desc l) <-> In y l.
Proof.
  induction l as [|x r IH]; simpl; [tauto|].
  rewrite In_insert_desc, IH. intuition.
Qed.

Lemma length_insert_desc (e : Employee.t) (l : list Employee.t) :
  List.length (insert_desc e l) = S (List.length l).
Proof.
  induction l as [|x r IH]; simpl; [reflexivity|].
  destruct (_ <? _)%Z; simpl; [reflexivity|now rewrite IH].
Qed.

Lemma length_sort_created_desc (l : list Employee.t) :
  List.length (sort_created_desc l) = List.length l.
Proof.
  induction l as [|x r IH]; simpl; [reflexivity|].
  now rewrite length_insert_desc, IH.
Qed.

Lemma insert_desc_sorted (e : Employee.t) (l : list Employee.t) :
  StronglySorted newer_first l -> StronglySorted newer_first (insert_desc e l).
Proof.
  induction 1 as [|x r Hr IH Hx]; simpl.
  - constructor; constructor.
  - destruct (Employee.created_at x <? Employee.created_at e)%Z eqn:E.
    + apply Z.ltb_lt in E. constructor; [now constructor|].
      constructor; [unfold newer_first; lia|].
      rewrite Forall_forall in *. intros y Hy. specialize (Hx y Hy).
      unfold newer_first in *. lia.
    + apply Z.ltb_ge in E. constructor; [exact IH|].
      rewrite Forall_forall in *. intros y Hy.
      apply In_insert_desc in Hy as [-> | Hy]; [exact E|now apply Hx].
Qed.

Lemma sort_created_desc_sorted (l : list Employee.t) :
  StronglySorted newer_first (sort_created_desc l).
Proof.
  induction l as [|x r IH]; simpl; [constructor|now apply insert_desc_sorted].
Qed.

Lemma In_firstn (n : nat) (l : list Employee.t) (y : Employee.t) :
  In y (firstn n l) -> In y l.
Proof.
  revert l; induction n as [|n IH]; intros [|x l]; simpl; try tauto.
  intros [-> | H]; [now left|right; now apply IH].
Qed.

Lemma In_skipn (n : nat) (l : list Employee.t) (y : Employee.t) :
  In y (skipn n l) -> In y l.
Proof.
  revert l; induction n as [|n IH]; intros [|x l]; simpl; try tauto.
  intros H. right. now apply IH.
Qed.

Lemma skipn_sorted (n : nat) (l : list Employee.t) :
  StronglySorted newer_first l -> StronglySorted newer_first (skipn n l).
Proof.
  revert l; induction n as [|n IH]; intros l H; [exact H|].
  destruct l as [|x l]; [exact H|]. simpl. apply IH.
  now inversion H.
Qed.

Lemma firstn_sorted (n : nat) (l : list Employee.t) :
  StronglySorted newer_first l -> StronglySorted newer_first (firstn n l).
Proof.
  revert l; induction n as [|n IH]; intros l H; [constructor|].
  destruct l as [|x l]; [constructor|]. simpl.
  inversion H as [|? ? Hl Hx]; subst. constructor; [now apply IH|].
  rewrite Forall_forall in *. intros y Hy. apply Hx. now apply In_firstn in Hy.
Qed.

(** X9. What [getAllEmployees] returns is newest first: no employee of the
    list was created before one that follows it. Every employee of the
    list is a document of the collection, and [total] is the size of the
    whole collection, not of the page. *)
Theorem getAllEmployees_newest_first
  (page limit : IntArg) (context : Context) (w : World) (res : EmployeeList.t) :
  fst (getAllEmployees page limit context w) = Ok res ->
  StronglySorted newer_first (EmployeeList.employees res)
  /\ (forall e, In e (EmployeeList.employees res) -> In e (employees w))
  /\ EmployeeList.total res = Z.of_nat (List.length (employees w)).
Proof.
  intros H. apply getAllEmployees_ok_inv in H. subst res. simpl.
  split; [|split; [|reflexivity]].
  - apply firstn_sorted, skipn_sorted, sort_created_desc_sorted.
  - intros e He. apply In_firstn, In_skipn in He.
    now apply In_sort_created_desc.
Qed.

Lemma firstn_then_more (n k : nat) (l : list Employee.t) :
  firstn n l ++ firstn k (skipn n l) = firstn (n + k) l.
Proof.
  revert l; induction n as [|n IH]; intros l; [reflexivity|].
  destruct l as [|x l]; simpl; [now rewrite firstn_nil|].
  now rewrite IH.
Qed.

Lemma firstn_twice (n : nat) (l : list Employee.t) :
  firstn n l ++ firstn n (skipn n l) = firstn (n + n) l.
Proof. apply firstn_then_more. Qed.

Lemma insert_desc_perm (e : Employee.t) (l : list Employee.t) :
  Permutation (e :: l) (insert_desc e l).
Proof.
  induction l as [|x r IH]; simpl; [reflexivity|].
  destruct (_ <? _)%Z; [reflexivity|].
  rewrite perm_swap. now constructor.
Qed.

Lemma sort_created_desc_perm (l : list Employee.t) :
  Permutation l (sort_created_desc l).
Proof.
  induction l as [|x r IH]; simpl; [constructor|].
  rewrite <- insert_desc_perm. now constructor.
Qed.

(** With distinct creation times there is one newest-first order: two
    newest-first lists with the same documents are the same list. *)
Lemma newest_first_unique (l1 l2 : list Employee.t) :
  StronglySorted newer_first l1 ->
  StronglySorted newer_first l2 ->
  Permutation l1 l2 ->
  NoDup (map Employee.created_at l1) ->
  l1 = l2.
Proof.
  revert l2. induction l1 as [|x l1 IH]; intros l2 S1 S2 P Hnd.
  - apply Permutation_nil in P. now subst.
  - destruct l2 as [|y l2].
    { symmetry in P. apply Permutation_nil in P. discriminate. }
    inversion S1 as [|? ? S1' F1]; subst.
    inversion S2 as [|? ? S2' F2]; subst.
    inversion Hnd as [|? ? Hx Hnd']; subst.
    rewrite Forall_forall in F1, F2.
    assert (Exy : x = y).
    { assert (Hy : In y (x :: l1)).
      { apply (Permutation_in y (Permutation_sym P)). now left. }
      destruct Hy as [E | Hy]; [exact E|].
      assert (Hx' : In x (y :: l2)).
      { apply (Permutation_in x P). now left. }
      destruct Hx' as [E | Hx']; [now symmetry|].
      specialize (F1 y Hy). specialize (F2 x Hx'). unfold newer_first in *.
      exfalso. apply Hx.
      replace (Employee.created_at x) with (Employee.created_at y) by lia.
      now apply in_map. }
    subst y. f_equal. apply IH; trivial.
    now apply Permutation_cons_inv in P.
Qed.

(** X10. Consecutive pages tile the list, when no two employees were
    created at the same instant: for a page number [z >= 1], the list of
    page [z] followed by the list of page [z + 1] (same limit, same store)
    is the stretch of twice the limit in force that starts where page [z]
    starts, in the newest-first order of the collection, and that order is
    the only one there is: it is the same for both queries, however the
    store breaks ties elsewhere. Nothing is skipped, nothing is repeated. *)
Theorem getAllEmployees_pages_tile
  (z : Z) (limit : IntArg) (context : Context) (w : World)
  (r1 r2 : EmployeeList.t) :
  (1 <= z)%Z ->
  NoDup (map Employee.created_at (employees w)) ->
  fst (getAllEmployees (Given (Some z)) limit context w) = Ok r1 ->
  fst (getAllEmployees (Given (Some (z + 1)%Z)) limit context w) = Ok r2 ->
  forall s,
    Permutation (employees w) s ->
    StronglySorted newer_first s ->
    s = sort_created_desc (employees w)
    /\ EmployeeList.employees r1 ++ EmployeeList.employees r2
       = firstn (Z.to_nat (2 * safeLimit limit))
                (skipn (Z.to_nat ((z - 1) * safeLimit limit)) s).
Proof.
  intros Hz Hnd H1 H2 s Hperm Hsorted.
  assert (Hs : s = sort_created_desc (employees w)).
  { symmetry. apply newest_first_unique; trivial.
    - apply sort_created_desc_sorted.
    - rewrite <- Hperm. symmetry. apply sort_created_desc_perm.
    - apply (Permutation_NoDup (l := map Employee.created_at (employees w)));
        [|exact Hnd].
      apply Permutation_map, sort_created_desc_perm. }
  split; [exact Hs|]. rewrite Hs.
  apply getAllEmployees_ok_inv in H1, H2. subst r1 r2.
  cbn [EmployeeList.employees].
  pose proof (safeLimit_range limit) as HL.
  set (L := safeLimit limit) in *.
  set (l := sort_created_desc (employees w)).
  assert (S1 : skip (Given (Some z)) limit = ((z - 1) * L)%Z).
  { unfold skip, safePage. simpl. fold L. now rewrite Z.max_r by lia. }
  assert (S2 : skip (Given (Some (z + 1)%Z)) limit = ((z - 1) * L + L)%Z).
  { unfold skip, safePage. simpl. fold L. rewrite Z.max_r by lia. lia. }
  rewrite S1, S2.
  replace (Z.to_nat ((z - 1) * L + L))
    with (Z.to_nat L + Z.to_nat ((z - 1) * L)) by nia.
  rewrite <- skipn_skipn, firstn_twice.
  f_equal. lia.
Qed.

(** X11. The edges of the paging. A page that starts at or after the end of
    the collection is the empty list, returned without error and with the
    true total; the first page of a collection no larger than the limit
    in force is the whole collection, newest first. *)
Theorem getAllEmployees_edges
  (page limit : IntArg) (context : Context) (w : World) (res : EmployeeList.t) :
  fst (getAllEmployees page limit context w) = Ok res ->
  ((Z.of_nat (List.length (employees w)) <= skip page limit)%Z ->
   EmployeeList.employees res = []
   /\ EmployeeList.total res = Z.of_nat (List.length (employees w)))
  /\ (safePage page = 1%Z ->
      (Z.of_nat (List.length (employees w)) <= safeLimit limit)%Z ->
      EmployeeList.employees res = sort_created_desc (employees w)).
Proof.
  intros H. apply getAllEmployees_ok_inv in H. subst res. simpl. split.
  - intros Hend. split; [|reflexivity].
    rewrite skipn_all2; [now rewrite firstn_nil|].
    rewrite length_sort_created_desc. lia.
  - intros Hp Hsmall. unfold skip. rewrite Hp. simpl.
    apply firstn_all2. rewrite length_sort_created_desc. lia.
Qed.

(** ** [deleteEmployee] and [searchEmployeeById] *)

Lemma validateObjectId_cases (id : jsstring) (f : string) :
  validateObjectId id f = Ok tt
  \/ exists msg, validateObjectId id f = Throw (badInput msg).
Proof. unfold validateObjectId. destruct (_ || _); eauto. Qed.

Lemma remove_first_length (p : Employee.t -> bool) (l : list Employee.t)
                          (e : Employee.t) :
  find p l = Some e ->
  S (List.length (remove_first p l)) = List.length l.
Proof.
  induction l as [|x r IH]; simpl; [discriminate|].
  destruct (p x); [reflexivity|]. intros H. simpl. now rewrite IH.
Qed.

Lemma remove_first_keeps (p : Employee.t -> bool) (l : list Employee.t)
                         (x : Employee.t) :
  In x l -> p x = false -> In x (remove_first p l).
Proof.
  induction l as [|y r IH]; simpl; [tauto|].
  intros [-> | Hin] Hp.
  - rewrite Hp. now left.
  - destruct (p y); [exact Hin|]. right. now apply IH.
Qed.

Lemma remove_first_subset (p : Employee.t -> bool) (l : list Employee.t)
                          (x : Employee.t) :
  In x (remove_first p l) -> In x l.
Proof.
  induction l as [|y r IH]; simpl; [tauto|].
  destruct (p y); [tauto|]. intros [-> | H]; [now left|right; now apply IH].
Qed.

Lemma find_id_absent (i : ObjectId) (l : list Employee.t) :
  ~ In i (map Employee._id l) ->
  find (fun e => N.eqb (Employee._id e) i) l = None.
Proof.
  induction l as [|x r IH]; simpl; [reflexivity|]. intros H.
  destruct (N.eqb (Employee._id x) i) eqn:E.
  - apply N.eqb_eq in E. exfalso. apply H. now left.
  - apply IH. intros Hin. apply H. now right.
Qed.

Lemma find_after_remove (i : ObjectId) (l : list Employee.t) :
  NoDup (map Employee._id l) ->
  find (fun e => N.eqb (Employee._id e) i)
       (remove_first (fun e => N.eqb (Employee._id e) i) l) = None.
Proof.
  induction l as [|x r IH]; simpl; [reflexivity|]. intros Hnd.
  inversion Hnd as [|? ? Hx Hr]; subst.
  destruct (N.eqb (Employee._id x) i) eqn:E.
  - apply N.eqb_eq in E. subst i. now apply find_id_absent.
  - simpl. rewrite E. now apply IH.
Qed.

Lemma lookup_not_found (eid : jsstring) (context : Context) (w : World) (u : User) :
  user context = Some u ->
  validateObjectId eid "eid" = Ok tt ->
  find (fun e => N.eqb (Employee._id e) (ObjectId_of_hex eid)) (employees w)
  = None ->
  deleteEmployee eid context w = (Throw (notFound (employee_entity eid)), w)
  /\ searchEmployeeById eid context w
     = (Throw (notFound (employee_entity eid)), w).
Proof.
  intros Hu Hv Hf.
  unfold deleteEmployee, searchEmployeeById, requireAuth, Employee_findById,
    bind, lift, get_employees, ret, throw, Ok, Throw in *.
  rewrite Hu, Hv. cbn [fst snd]. now rewrite Hf.
Qed.

(** X12. A successful [deleteEmployee]: for an authenticated caller, a
    well-formed id and a document with that id, the call answers with
    [success], the id as given and a message naming the employee, and the
    collection loses that document and no other. When the ids of the
    collection are pairwise distinct, looking the id up afterwards, or
    deleting it again, fails with [NOT_FOUND]. *)
Theorem deleteEmployee_removes
  (eid : jsstring) (context : Context) (w : World) (u : User) (e : Employee.t) :
  user context = Some u ->
  validateObjectId eid "eid" = Ok tt ->
  find (fun x => N.eqb (Employee._id x) (ObjectId_of_hex eid)) (employees w)
  = Some e ->
  let w' := {| users := users w;
               employees := remove_first
                 (fun x => N.eqb (Employee._id x) (ObjectId_of_hex eid))
                 (employees w);
               next_id := next_id w;
               bcrypt_log := bcrypt_log w |} in
  deleteEmployee eid context w
  = (Ok {| DeleteResponse.success := true;
           DeleteResponse.message :=
             Js.dquote ++ Employee.first_name e ++ Js.lit " "
             ++ Employee.last_name e ++ Js.dquote
             ++ Js.lit " has been removed.";
           DeleteResponse.deleted_id := eid |}, w')
  /\ S (List.length (employees w')) = List.length (employees w)
  /\ (forall x, In x (employees w) ->
        Employee._id x <> ObjectId_of_hex eid -> In x (employees w'))
  /\ (forall x, In x (employees w') -> In x (employees w))
  /\ (NoDup (map Employee._id (employees w)) ->
      fst (searchEmployeeById eid context w')
      = Throw (notFound (employee_entity eid))
      /\ fst (deleteEmployee eid context w')
         = Throw (notFound (employee_entity eid))).
Proof.
  intros Hu Hv Hf w'. split; [|split; [|split; [|split]]].
  - unfold deleteEmployee, requireAuth, Employee_findById,
      Employee_findByIdAndDelete, bind, lift, get_employees, set_employees,
      ret, throw, Ok, Throw in *.
    rewrite Hu, Hv. cbn [fst snd employees]. now rewrite Hf.
  - apply (remove_first_length _ _ e Hf).
  - intros x Hin Hid. apply remove_first_keeps; [exact Hin|].
    now apply N.eqb_neq.
  - intros x. apply remove_first_subset.
  - intros Hnd.
    destruct (lookup_not_found eid context w' u Hu Hv
                (find_after_remove (ObjectId_of_hex eid) (employees w) Hnd))
      as [-> ->]. now split.
Qed.

Lemma isHexDigit_iff (c : N) : isHexDigit c = true <-> is_hex_code c.
Proof.
  unfold isHexDigit, is_hex_code, Js.isDigit.
  rewrite !orb_true_iff, !andb_true_iff, !N.leb_le. tauto.
Qed.

(** [validateObjectId] accepts exactly the strings of 24 hexadecimal
    digits. *)
Lemma validateObjectId_accepts_iff (id : jsstring) (f : string) :
  validateObjectId id f = Ok tt <->
  List.length id = 24 /\ forall c, In c id -> is_hex_code c.
Proof.
  unfold validateObjectId, objectId_pattern.
  destruct (Nat.eqb (List.length id) 24) eqn:L.
  - apply Nat.eqb_eq in L.
    assert (Hf : Js.falsy id = false) by (destruct id; [discriminate|reflexivity]).
    rewrite Hf. cbn [orb andb].
    destruct (forallb isHexDigit id) eqn:F; cbn [negb].
    + split; [|reflexivity]. intros _. split; [exact L|].
      rewrite forallb_forall in F. intros c Hc. now apply isHexDigit_iff, F.
    + split; [discriminate|]. intros [_ H]. exfalso.
      apply forallb_false_iff in F as (c & Hc & Hno).
      apply H, isHexDigit_iff in Hc. congruence.
  - apply Nat.eqb_neq in L. cbn [andb negb]. rewrite orb_true_r.
    split; [discriminate|]. intros [H _]. contradiction.
Qed.

Lemma validateObjectId_refuses (id : jsstring) :
  validateObjectId id "eid" <> Ok tt ->
  validateObjectId id "eid" = Throw (badInput invalid_eid_message).
Proof.
  unfold validateObjectId. destruct (_ || _); [reflexivity|congruence].
Qed.

(** X13. The refusals of the two lookups by id, in their order: an
    anonymous caller gets [UNAUTHENTICATED] whatever the id; then a string
    that has not 24 code units, or holds one that is not a hexadecimal
    digit, gets the [BAD_USER_INPUT] error ["eid" is not a valid ID.];
    then a string of 24 hexadecimal digits that no document has as its id
    gets [NOT_FOUND]. In each case [deleteEmployee] and
    [searchEmployeeById] throw the same error and the store is untouched. *)
Theorem lookup_refusals (eid : jsstring) (context : Context) (w : World) :
  (user context = None ->
   deleteEmployee eid context w = (Throw (unauth None), w)
   /\ searchEmployeeById eid context w = (Throw (unauth None), w))
  /\ (forall u, user context = Some u ->
      List.length eid <> 24 \/ (exists c, In c eid /\ ~ is_hex_code c) ->
      deleteEmployee eid context w
      = (Throw (badInput invalid_eid_message), w)
      /\ searchEmployeeById eid context w
         = (Throw (badInput invalid_eid_message), w)
      /\ error_code (badInput invalid_eid_message) = "BAD_USER_INPUT"%string)
  /\ (forall u, user context = Some u ->
      List.length eid = 24 ->
      (forall c, In c eid -> is_hex_code c) ->
      find (fun e => N.eqb (Employee._id e) (ObjectId_of_hex eid))
           (employees w) = None ->
      deleteEmployee eid context w
      = (Throw (notFound (employee_entity eid)), w)
      /\ searchEmployeeById eid context w
         = (Throw (notFound (employee_entity eid)), w)
      /\ error_code (notFound (employee_entity eid)) = "NOT_FOUND"%string)
  /\ (validateObjectId eid "eid" = Ok tt <->
      List.length eid = 24 /\ forall c, In c eid -> is_hex_code c).
Proof.
  split; [|split; [|split]].
  - intros Hu. unfold deleteEmployee, searchEmployeeById, requireAuth, bind,
      lift. now rewrite Hu.
  - intros u Hu Hbad.
    assert (E : validateObjectId eid "eid"
                = Throw (badInput invalid_eid_message)).
    { apply validateObjectId_refuses. intros Hok.
      apply validateObjectId_accepts_iff in Hok as [Hlen Hhex].
      destruct Hbad as [Hl | (c & Hc & Hno)]; [contradiction|].
      now apply Hno, Hhex. }
    unfold deleteEmployee, searchEmployeeById, requireAuth, bind, lift.
    now rewrite Hu, E.
  - intros u Hu Hlen Hhex Hf.
    assert (Hv : validateObjectId eid "eid" = Ok tt).
    { apply validateObjectId_accepts_iff. now split. }
    destruct (lookup_not_found eid context w u Hu Hv Hf) as [-> ->].
    now repeat split.
  - apply validateObjectId_accepts_iff.
Qed.

(** X14. [searchEmployeeById] on a document that exists: for an
    authenticated caller and a well-formed id it returns the first
    document of the collection whose id the string writes, and changes
    nothing. *)
Theorem searchEmployeeById_finds
  (eid : jsstring) (context : Context) (w : World) (u : User) (e : Employee.t) :
  user context = Some u ->
  validateObjectId eid "eid" = Ok tt ->
  find (fun x => N.eqb (Employee._id x) (ObjectId_of_hex eid)) (employees w)
  = Some e ->
  searchEmployeeById eid context w = (Ok e, w)
  /\ In e (employees w)
  /\ Employee._id e = ObjectId_of_hex eid.
Proof.
  intros Hu Hv Hf. split.
  - unfold searchEmployeeById, requireAuth, Employee_findById, bind, lift,
      get_employees, ret, throw, Ok, Throw in *.
    rewrite Hu, Hv. cbn [fst snd]. now rewrite Hf.
  - apply find_some in Hf as [Hin Hid]. split; [exact Hin|].
    now apply N.eqb_eq.
Qed.

(** ** [formatError] *)

Lemma code_or_internal_nonempty (c : option string) :
  code_or_internal c <> EmptyString.
Proof. destruct c as [[|a s]|]; simpl; discriminate. Qed.

(** X15. In production an internal error never shows its text: when the
    code of the answer is [INTERNAL_SERVER_ERROR] (also for an error with
    no code or an empty one) the message is the fixed apology and the path
    is dropped. An error with another code keeps its message, code and
    path, and outside production every error keeps its message and path.
    The answer always has a non-empty code. *)
Theorem formatError_production (IS_PROD : bool) (fe : FormattedError.t) :
  (IS_PROD = true ->
   FormattedError.code (formatError IS_PROD fe)
   = Some "INTERNAL_SERVER_ERROR"%string ->
   FormattedError.message (formatError IS_PROD fe) = generic_message
   /\ FormattedError.path (formatError IS_PROD fe) = None)
  /\ (forall c, FormattedError.code fe = Some c ->
      c <> EmptyString -> c <> "INTERNAL_SERVER_ERROR"%string ->
      formatError IS_PROD fe = fe)
  /\ (IS_PROD = false ->
      FormattedError.message (formatError IS_PROD fe) = FormattedError.message fe
      /\ FormattedError.path (formatError IS_PROD fe) = FormattedError.path fe)
  /\ (exists c, FormattedError.code (formatError IS_PROD fe) = Some c
                /\ c <> EmptyString).
Proof.
  unfold formatError. split; [|split; [|split]].
  - intros -> H. simpl in *.
    destruct (String.eqb _ _) eqn:E; simpl in *; [now split|].
    injection H as H. rewrite H in E. discriminate.
  - intros c Hc Hne Hint. rewrite Hc.
    assert (Hcode : code_or_internal (Some c) = c) by (destruct c; [contradiction|reflexivity]).
    rewrite Hcode.
    destruct (String.eqb c "INTERNAL_SERVER_ERROR") eqn:E.
    + apply String.eqb_eq in E. contradiction.
    + rewrite andb_false_r. destruct fe; simpl in *. now subst.
  - intros ->. now simpl.
  - destruct (IS_PROD && _); simpl; eexists; split; try reflexivity;
      apply code_or_internal_nonempty.
Qed.

(** ** [connectDB] *)

Lemma connectDB_from_spec (connect : nat -> bool) (n k : nat) :
  let r := connectDB_from connect k n in
  1 <= attempts r <= S n
  /\ waited r = (RETRY_DELAY_MS * (Z.of_nat (attempts r) - 1))%Z
  /\ (forall j, j < attempts r - 1 -> connect (k + j) = false)
  /\ (outcome r = Connected /\ connect (k + (attempts r - 1)) = true
      \/ outcome r = Exited 1 /\ attempts r = S n
         /\ connect (k + n) = false).
Proof.
  unfold RETRY_DELAY_MS.
  revert k. induction n as [|n IH]; intros k;
    cbn [connectDB_from]; cbv zeta.
  - destruct (connect k) eqn:E; cbn [attempts waited outcome].
    + repeat split; try lia. left. now rewrite Nat.add_0_r.
    + repeat split; try lia. right. now rewrite Nat.add_0_r.
  - destruct (connect k) eqn:E; cbn [attempts waited outcome].
    + repeat split; try lia. left. now rewrite Nat.add_0_r.
    + specialize (IH (S k)). cbv zeta in IH.
      destruct IH as (Ha & Hw & Hfail & Hout).
      set (r := connectDB_from connect (S k) n) in *.
      unfold RETRY_DELAY_MS.
      split; [lia|]. split; [rewrite Hw; lia|]. split.
      * intros j Hj. destruct j as [|j]; [now rewrite Nat.add_0_r|].
        replace (k + S j) with (S k + j) by lia. apply Hfail. lia.
      * replace (k + (S (attempts r) - 1)) with (S k + (attempts r - 1)) by lia.
        replace (k + S n) with (S k + n) by lia.
        destruct Hout as [[Ho Hc] | (Ho & Hn & Hc)]; [left|right]; auto.
Qed.

(** X16. The start-up connection: [connectDB()] calls [mongoose.connect]
    at most 6 times and stops at the first call that succeeds, having
    waited 5 seconds after each failure (25 seconds at most). It connects
    exactly when one of the first 6 calls succeeds, and exits the process
    with code 1 exactly when all 6 fail. *)
Theorem connectDB_retries (connect : nat -> bool) :
  let r := connectDB connect in
  1 <= attempts r <= 6
  /\ waited r = (5000 * (Z.of_nat (attempts r) - 1))%Z
  /\ (waited r <= 25000)%Z
  /\ (forall j, j < attempts r - 1 -> connect j = false)
  /\ (outcome r = Connected <-> exists k, k <= 5 /\ connect k = true)
  /\ (outcome r = Exited 1 <-> forall k, k <= 5 -> connect k = false)
  /\ (outcome r = Connected -> connect (attempts r - 1) = true).
Proof.
  intros r. unfold r, connectDB, MAX_RETRIES. clear r.
  pose proof (connectDB_from_spec connect 5 0) as H. cbv zeta in H.
  generalize dependent (connectDB_from connect 0 5). intros q H.
  destruct H as (Ha & Hw & Hfail0 & Hout).
  rewrite !Nat.add_0_l in Hout.
  assert (Hfail : forall j, j < attempts q - 1 -> connect j = false).
  { intros j Hj. exact (Hfail0 j Hj). }
  unfold RETRY_DELAY_MS in Hw.
  assert (Hall : outcome q = Exited 1 -> forall k, k <= 5 -> connect k = false).
  { intros Ho k Hk. destruct Hout as [[Hc _] | (_ & Hn & Hc)]; [congruence|].
    destruct (Nat.eq_dec k 5) as [-> | Hne]; [exact Hc|].
    apply Hfail. lia. }
  split; [lia|]. split; [exact Hw|]. split; [lia|]. split; [exact Hfail|].
  split; [|split].
  - split.
    + intros Ho. destruct Hout as [[_ Hc] | (Hx & _)]; [|congruence].
      exists (attempts q - 1). split; [lia|exact Hc].
    + intros (k & Hk & Hc). destruct Hout as [[Ho _] | (Ho & _)]; [exact Ho|].
      rewrite (Hall Ho k Hk) in Hc. discriminate.
  - split; [exact Hall|].
    intros Hno. destruct Hout as [[_ Hc] | (Ho & _)]; [|exact Ho].
    rewrite Hno in Hc by lia. discriminate.
  - intros Ho. destruct Hout as [[_ Hc] | (Hx & _)]; [exact Hc|congruence].
Qed.

End Properties.

(* ===================================================================== *)
(** * The program on concrete requests *)
(* ===================================================================== *)

Section Runs.

Local Existing Instance Sample.runtime.


(** An unknown name on an empty Sample.store and a wrong password for a known
    name: the same error. *)
Lemma login_failure_indistinguishable_witness :
  fst (login Sample.amb (Js.lit "alice") (Js.lit "wrong") Sample.empty)
  = Throw (badInput credentials_message)
  /\ fst (login Sample.amb (Js.lit "alice") (Js.lit "wrong") Sample.store)
     = Throw (badInput credentials_message).
Proof.
  destruct (login_failure_indistinguishable
              Sample.amb Sample.amb Sample.empty Sample.store
              (Js.lit "alice") (Js.lit "wrong") (Js.lit "alice") (Js.lit "wrong")
              Sample.alice) as [_ P]; [reflexivity ..|].
  apply P; reflexivity.
Defined.

(** A valid token of an active account authenticates it; the account is
    loaded without its password. *)
Lemma buildContext_identity_witness :
  buildContext Sample.amb (Sample.bearer Sample.alice_token) Sample.store
  = (Ok (authenticated (with_password Sample.alice None)
                       (Sample.bearer Sample.alice_token)), Sample.store).
Proof.
  destruct (buildContext_identity Sample.amb (Sample.bearer Sample.alice_token) Sample.store)
    as (_ & _ & P).
  destruct (P Sample.alice_token) as [_ Q]; [reflexivity|discriminate|].
  destruct (Q {| userId := Some 7%N; iat := 1000; exp := None |}) as [_ T];
    [reflexivity|].
  destruct (T (with_password Sample.alice None)) as [_ U]; [reflexivity|].
  apply U. reflexivity.
Defined.

(** No header, a token signed with another secret, a deactivated account:
    anonymous each time. *)
Example buildContext_anonymous_runs :
  fst (buildContext Sample.amb {| authorization := None |} Sample.store)
  = Ok (anonymous {| authorization := None |})
  /\ fst (buildContext Sample.amb (Sample.bearer (7%N :: 1000%N :: Js.lit "forged")) Sample.store)
     = Ok (anonymous (Sample.bearer (7%N :: 1000%N :: Js.lit "forged")))
  /\ fst (buildContext Sample.amb (Sample.bearer Sample.alice_token) Sample.store_off)
     = Ok (anonymous (Sample.bearer Sample.alice_token))
  /\ fst (buildContext Sample.amb (Sample.bearer (Js.lit "   ")) Sample.store)
     = Ok (anonymous (Sample.bearer (Js.lit "   "))).
Proof. repeat split. Qed.

(** An identifier typed with blanks around it, or an address in capitals,
    finds the account: the lookup compares after the schema's setters. *)
Example login_padded_identifier :
  fst (User_findByCredential (Js.lit " alice ") Sample.store)
  = Ok (Some Sample.alice)
  /\ fst (User_findByCredential (Js.lit " ALICE@X.COM ") Sample.store)
     = Ok (Some Sample.alice)
  /\ option_map AuthPayload.user
       (match fst (login Sample.amb (Js.lit " alice ") (Js.lit "Passw0rd1")
                         Sample.store) with
        | inr p => Some p
        | inl _ => None
        end) = Some Sample.alice
  /\ bcrypt_log (snd (login Sample.amb (Js.lit " alice ") (Js.lit "wrong")
                            Sample.store))
     = [CompareCall (Js.lit "wrong")
                    (Sample.hash (Js.lit "Passw0rd1") 12 (Js.lit "NaCl"))].
Proof. repeat split. Qed.


(** The account [login] returns carries the stored hash. *)
Lemma login_returns_stored_hash :
  ~ (forall R : Runtime, @login_account_without_secret R).
Proof.
  intros H.
  assert (E : password Sample.alice = None).
  { apply (H Sample.runtime Sample.amb Sample.store (Js.lit "alice")
             (Js.lit "Passw0rd1")
             {| AuthPayload.token := Sample.alice_token;
                AuthPayload.token_type := Js.lit "Bearer";
                AuthPayload.expires_in := Js.lit "7d";
                AuthPayload.user := Sample.alice |}).
    reflexivity. }
  discriminate E.
Qed.

Lemma login_success_witness :
  fst (login Sample.amb (Js.lit "alice") (Js.lit "Passw0rd1") Sample.store)
  = Ok {| AuthPayload.token := Sample.alice_token;
          AuthPayload.token_type := Js.lit "Bearer";
          AuthPayload.expires_in := Js.lit "7d";
          AuthPayload.user := Sample.alice |}
  /\ password Sample.alice
     = Some (Sample.hash (Js.lit "Passw0rd1") 12 (Js.lit "NaCl")).
Proof.
  split; [|reflexivity].
  destruct (login_success Sample.amb Sample.store (Js.lit "alice")
              (Js.lit "Passw0rd1") Sample.alice Sample.alice_token) as [P _];
    [reflexivity ..|].
  exact P.
Defined.

(** With no record for the name bcrypt is not called, whatever the
    platform: on no platform does every login run one comparison. *)
Lemma login_unknown_runs_no_comparison :
  ~ (exists R : Runtime, @compare_runs_once_always R).
Proof.
  intros [R H].
  assert (E : compare_calls (bcrypt_log (snd (login Sample.amb
                 (Js.lit "nobody") (Js.lit "Passw0rd1") Sample.empty)))
              = S (compare_calls (bcrypt_log Sample.empty))).
  { apply H; reflexivity. }
  rewrite (login_unknown Sample.amb (Js.lit "nobody") (Js.lit "Passw0rd1")
             Sample.empty eq_refl eq_refl eq_refl) in E.
  discriminate E.
Qed.

Lemma login_compare_calls_witness :
  bcrypt_log (snd (login Sample.amb (Js.lit "nobody") (Js.lit "Passw0rd1") Sample.store))
  = []
  /\ bcrypt_log (snd (login Sample.amb (Js.lit "alice") (Js.lit "wrong") Sample.store))
     = [CompareCall (Js.lit "wrong")
                    (Sample.hash (Js.lit "Passw0rd1") 12 (Js.lit "NaCl"))].
Proof.
  split.
  - destruct (login_compare_calls Sample.amb Sample.store (Js.lit "nobody")
                (Js.lit "Passw0rd1")) as [P _]; [reflexivity ..|].
    apply P. reflexivity.
  - destruct (login_compare_calls Sample.amb Sample.store (Js.lit "alice")
                (Js.lit "wrong")) as [_ P]; [reflexivity ..|].
    apply (P Sample.alice); reflexivity.
Defined.

Lemma requireAuth_gate_witness :
  requireAuth (authenticated Sample.alice {| authorization := None |})
  = Ok Sample.alice
  /\ requireAuth (anonymous {| authorization := None |}) = Throw (unauth None).
Proof.
  split.
  - apply (requireAuth_gate (authenticated Sample.alice {| authorization := None |})).
    reflexivity.
  - apply (requireAuth_gate (anonymous {| authorization := None |})).
    reflexivity.
Defined.

Lemma login_deactivated_witness :
  fst (login Sample.amb (Js.lit "alice") (Js.lit "Passw0rd1") Sample.store_off)
  = Throw (badInput deactivated_message).
Proof.
  destruct (login_deactivated Sample.amb Sample.store_off (Js.lit "alice")
              (Js.lit "Passw0rd1") Sample.alice_off) as [P _];
    [reflexivity ..|].
  exact P.
Defined.

Lemma seed_stores_plaintext_witness :
  map (fun u => (username u, password u)) (users (snd (seed Sample.amb Sample.store)))
  = [ (Js.lit "admin", Some (Js.lit "Admin1234"));
      (Js.lit "testuser", Some (Js.lit "Test1234")) ]
  /\ bcrypt_log (snd (seed Sample.amb Sample.store)) = [].
Proof.
  split; [reflexivity|].
  apply (seed_stores_plaintext Sample.amb Sample.store).
  repeat constructor.
Defined.

Lemma signup_long_username_witness :
  exists errs,
    fst (signup Sample.amb (repeat 97%N 31) (Js.lit "bob@x.com")
                (Js.lit "Passw0rd1") Sample.store)
    = Throw (ValidationError errs)
    /\ In ("username", "Username can't be longer than 30 characters.")%string errs
    /\ is_BadInput (ValidationError errs) = false
    /\ error_code (ValidationError errs) = "INTERNAL_SERVER_ERROR"%string
    /\ users (snd (signup Sample.amb (repeat 97%N 31) (Js.lit "bob@x.com")
                     (Js.lit "Passw0rd1") Sample.store)) = users Sample.store.
Proof.
  apply (signup_long_username Sample.amb Sample.store (repeat 97%N 31)
           (Js.lit "bob@x.com") (Js.lit "Passw0rd1"));
    reflexivity.
Defined.

Lemma getAllEmployees_pagination_witness :
  exists res,
    getAllEmployees (Given (Some 0%Z)) (Given (Some 99999%Z))
                    (authenticated Sample.alice {| authorization := None |})
                    Sample.store = (Ok res, Sample.store)
    /\ safePage (Given (Some 0%Z)) = 1%Z
    /\ safeLimit (Given (Some 99999%Z)) = 100%Z.
Proof.
  destruct (getAllEmployees_pagination
              (Given (Some 0%Z)) (Given (Some 99999%Z))
              (authenticated Sample.alice {| authorization := None |}) Sample.store)
    as (_ & _ & _ & _ & _ & _ & _ & _ & P).
  destruct (P Sample.alice) as [res Hres]; [reflexivity|].
  exists res. repeat split. exact Hres.
Defined.

(** ** Runs of the further properties *)

Lemma requireField_accepts_iff_witness :
  requireField (Js.lit "  a ") "username" = Ok tt
  /\ requireField [32%N; 160%N; 9%N] "username"
     = Throw (badInput (required_message "username")).
Proof.
  split.
  - destruct (requireField_accepts_iff (Js.lit "  a ") "username")
      as ([_ P] & _ & _).
    apply P. exists 97%N. split; [simpl; tauto|reflexivity].
  - destruct (requireField_accepts_iff [32%N; 160%N; 9%N] "username")
      as (_ & P & _).
    apply P. discriminate.
Defined.

Lemma signup_success_witness :
  fst (signup Sample.amb (Js.lit "bob_1") (Js.lit "Bob@x.com")
              (Js.lit "Passw0rd1") Sample.store)
  = Ok {| _id := 8;
          username := Js.lit "bob_1";
          email := Js.lit "bob@x.com";
          password := Some (Sample.hash (Js.lit "Passw0rd1") 12 (Js.lit "NaCl"));
          is_active := true;
          created_at := 1000;
          updated_at := 1000 |}.
Proof.
  rewrite (signup_success Sample.amb Sample.store (Js.lit "bob_1")
             (Js.lit "Bob@x.com") (Js.lit "Passw0rd1")); try reflexivity.
  - split; discriminate.
  - discriminate.
  - intros v [<- | []]. split; discriminate.
Defined.

Lemma signup_taken_witness :
  signup Sample.amb (Js.lit "alice") (Js.lit "new@x.com") (Js.lit "Passw0rd1")
         Sample.store
  = (Throw (conflict username_taken_message), Sample.store).
Proof.
  destruct (signup_taken Sample.amb Sample.store (Js.lit "alice")
              (Js.lit "new@x.com") (Js.lit "Passw0rd1") Sample.alice)
    as (e & He & _); [now left|now left|].
  reflexivity.
Defined.

Lemma signup_keeps_unique_witness :
  unique_users (users (snd (signup Sample.amb (Js.lit "bob_1")
                              (Js.lit "Bob@x.com") (Js.lit "Passw0rd1")
                              Sample.store))).
Proof.
  apply (signup_keeps_unique Sample.amb Sample.store).
  split; simpl; (constructor; [intros []|constructor]).
Defined.

Lemma signup_then_login_witness :
  option_map AuthPayload.token
    (match fst (login Sample.amb (Js.lit "bob_1") (Js.lit "Passw0rd1")
                  (snd (signup Sample.amb (Js.lit "bob_1") (Js.lit "Bob@x.com")
                          (Js.lit "Passw0rd1") Sample.store))) with
     | inr p => Some p
     | inl _ => None
     end)
  = Some (8%N :: 1000%N :: Js.lit "s3cret").
Proof.
  erewrite (signup_then_login Sample.amb Sample.amb Sample.store _
              (Js.lit "bob_1") (Js.lit "Bob@x.com") (Js.lit "Passw0rd1")).
  - reflexivity.
  - reflexivity.
  - reflexivity.
  - intros v [<- | []]. discriminate.
  - reflexivity.
Defined.

Lemma buildContext_account_witness :
  password (with_password Sample.alice None) = None
  /\ me (authenticated (with_password Sample.alice None)
                       (Sample.bearer Sample.alice_token)) Sample.store
     = (Ok (with_password Sample.alice None), Sample.store).
Proof.
  destruct (buildContext_account Sample.amb (Sample.bearer Sample.alice_token)
              Sample.store
              (authenticated (with_password Sample.alice None)
                             (Sample.bearer Sample.alice_token))
              (with_password Sample.alice None))
    as (Hp & _ & _ & Hme); [reflexivity ..|].
  split; [exact Hp|exact Hme].
Defined.

Lemma login_then_buildContext_witness :
  buildContext Sample.amb (Sample.bearer Sample.alice_token) Sample.store
  = (Ok (authenticated (with_password Sample.alice None)
                       (Sample.bearer Sample.alice_token)), Sample.store).
Proof.
  apply (login_then_buildContext Sample.amb Sample.amb Sample.store
           (Js.lit "alice") (Js.lit "Passw0rd1")
           {| AuthPayload.token := Sample.alice_token;
              AuthPayload.token_type := Js.lit "Bearer";
              AuthPayload.expires_in := Js.lit "7d";
              AuthPayload.user := Sample.alice |}
           {| userId := Some 7%N; iat := 1000; exp := None |});
    try reflexivity.
  - simpl. constructor; [intros []|constructor].
  - discriminate.
Defined.

Lemma getAllEmployees_newest_first_witness :
  StronglySorted newer_first [Staff.bob; Staff.cyd]
  /\ fst (getAllEmployees (Given (Some 1%Z)) (Given (Some 2%Z))
                          Staff.caller Staff.store)
     = Ok {| EmployeeList.total := 3;
             EmployeeList.employees := [Staff.bob; Staff.cyd] |}.
Proof.
  split; [|reflexivity].
  apply (getAllEmployees_newest_first (Given (Some 1%Z)) (Given (Some 2%Z))
           Staff.caller Staff.store
           {| EmployeeList.total := 3;
              EmployeeList.employees := [Staff.bob; Staff.cyd] |}).
  reflexivity.
Defined.

Lemma getAllEmployees_pages_tile_witness :
  [Staff.bob; Staff.cyd] ++ [Staff.ann]
  = firstn (Z.to_nat (2 * safeLimit (Given (Some 2%Z))))
      (skipn (Z.to_nat ((1 - 1) * safeLimit (Given (Some 2%Z))))
         [Staff.bob; Staff.cyd; Staff.ann]).
Proof.
  apply (getAllEmployees_pages_tile 1 (Given (Some 2%Z)) Staff.caller
           Staff.store
           {| EmployeeList.total := 3;
              EmployeeList.employees := [Staff.bob; Staff.cyd] |}
           {| EmployeeList.total := 3;
              EmployeeList.employees := [Staff.ann] |}).
  - lia.
  - simpl. repeat constructor; simpl; intuition discriminate.
  - reflexivity.
  - reflexivity.
  - simpl. rewrite (perm_swap Staff.bob Staff.ann [Staff.cyd]).
    constructor. apply perm_swap.
  - repeat constructor; unfold newer_first; simpl; lia.
Defined.

Lemma getAllEmployees_edges_witness :
  fst (getAllEmployees (Given (Some 5%Z)) (Given (Some 2%Z))
                       Staff.caller Staff.store)
  = Ok {| EmployeeList.total := 3; EmployeeList.employees := [] |}
  /\ EmployeeList.employees
       {| EmployeeList.total := 3; EmployeeList.employees := [] |} = [].
Proof.
  split; [reflexivity|].
  apply (getAllEmployees_edges (Given (Some 5%Z)) (Given (Some 2%Z))
           Staff.caller Staff.store
           {| EmployeeList.total := 3; EmployeeList.employees := [] |});
    [reflexivity|]. simpl. unfold skip, safePage, safeLimit. simpl. lia.
Defined.

Lemma deleteEmployee_removes_witness :
  employees (snd (deleteEmployee Staff.bob_id Staff.caller Staff.store))
  = [Staff.ann; Staff.cyd]
  /\ fst (deleteEmployee Staff.bob_id Staff.caller Staff.store)
     = Ok {| DeleteResponse.success := true;
             DeleteResponse.message :=
               Js.dquote ++ Js.lit "Bob Roy" ++ Js.dquote
               ++ Js.lit " has been removed.";
             DeleteResponse.deleted_id := Staff.bob_id |}.
Proof.
  destruct (deleteEmployee_removes Staff.bob_id Staff.caller Staff.store
              Sample.alice Staff.bob) as [E _]; [reflexivity ..|].
  rewrite E. split; reflexivity.
Defined.

Lemma lookup_refusals_witness :
  deleteEmployee (Js.lit "42") Staff.caller Staff.store
  = (Throw (badInput (Js.dquote ++ Js.lit "eid" ++ Js.dquote
                      ++ Js.lit " is not a valid ID.")), Staff.store)
  /\ deleteEmployee Staff.ann_id (anonymous {| authorization := None |})
                    Staff.store
     = (Throw (unauth None), Staff.store).
Proof.
  destruct (lookup_refusals (Js.lit "42") Staff.caller Staff.store)
    as (_ & B & _).
  destruct (B Sample.alice) as (Hd & _);
    [reflexivity|left; discriminate|].
  destruct (lookup_refusals Staff.ann_id (anonymous {| authorization := None |})
              Staff.store) as (A & _).
  destruct A as [Ha _]; [reflexivity|].
  split; [exact Hd|exact Ha].
Defined.

(** A string of the right length with one letter that is no hexadecimal
    digit is refused as well. *)
Example lookup_refuses_non_hex :
  fst (searchEmployeeById (Js.lit "00000000000000000000000g") Staff.caller
                          Staff.store)
  = Throw (badInput invalid_eid_message).
Proof. reflexivity. Qed.

Lemma searchEmployeeById_finds_witness :
  searchEmployeeById Staff.ann_id Staff.caller Staff.store
  = (Ok Staff.ann, Staff.store).
Proof.
  apply (searchEmployeeById_finds Staff.ann_id Staff.caller Staff.store
           Sample.alice Staff.ann); reflexivity.
Defined.

Lemma formatError_production_witness :
  FormattedError.message
    (formatError true
       {| FormattedError.message := Js.lit "E11000 duplicate key";
          FormattedError.code := None;
          FormattedError.path := Some [Js.lit "signup"] |})
  = generic_message
  /\ formatError true
       {| FormattedError.message := credentials_message;
          FormattedError.code := Some "BAD_USER_INPUT"%string;
          FormattedError.path := Some [Js.lit "login"] |}
     = {| FormattedError.message := credentials_message;
          FormattedError.code := Some "BAD_USER_INPUT"%string;
          FormattedError.path := Some [Js.lit "login"] |}.
Proof.
  split.
  - apply (formatError_production true
             {| FormattedError.message := Js.lit "E11000 duplicate key";
                FormattedError.code := None;
                FormattedError.path := Some [Js.lit "signup"] |});
      reflexivity.
  - apply (formatError_production true
             {| FormattedError.message := credentials_message;
                FormattedError.code := Some "BAD_USER_INPUT"%string;
                FormattedError.path := Some [Js.lit "login"] |})
      with (c := "BAD_USER_INPUT"%string); [reflexivity|discriminate ..].
Defined.

Lemma connectDB_retries_witness :
  connectDB (fun k => 2 <=? k)
  = {| outcome := Connected; attempts := 3; waited := 10000 |}
  /\ outcome (connectDB (fun _ => false)) = Exited 1.
Proof.
  split; [reflexivity|].
  apply (connectDB_retries (fun _ => false)). reflexivity.
Defined.


(** The scenario of the specification, end to end: sign up, log in, be
    refused with a wrong password, read the own profile with the token,
    be refused without one. *)
Example end_to_end :
  let w1 := snd (signup Sample.amb (Js.lit "alice") (Js.lit "alice@x.com")
                        (Js.lit "Passw0rd1") Sample.empty) in
  let tok := 1%N :: 1000%N :: Js.lit "s3cret" in
  let anon := {| authorization := None |} in
  option_map username (nth_error (users w1) 0) = Some (Js.lit "alice")
  /\ option_map AuthPayload.token
       (match fst (login Sample.amb (Js.lit "alice") (Js.lit "Passw0rd1") w1) with
        | inr p => Some p | inl _ => None end) = Some tok
  /\ fst (login Sample.amb (Js.lit "alice") (Js.lit "wrong") w1)
     = Throw (badInput credentials_message)
  /\ (match fst (buildContext Sample.amb (Sample.bearer tok) w1) with
      | inr ctx => option_map username
                     (match fst (me ctx w1) with inr u => Some u | inl _ => None end)
      | inl _ => None
      end) = Some (Js.lit "alice")
  /\ (match fst (buildContext Sample.amb anon w1) with
      | inr ctx => fst (me ctx w1)
      | inl e => Throw e
      end) = Throw (unauth None).
Proof. vm_compute. repeat split. Qed.

End Runs.
